(* ===================================================================== *)
(* pure-git-blame: a shallow embedding of src/extension.ts               *)
(*                                                                       *)
(* The development follows the class GitBlameProvider: the JavaScript    *)
(* string and Date primitives the parser calls, parseBlameOutput,        *)
(* showError, getGitBlame, updateDecorations and toggle.  Mutable fields *)
(* of the provider and the host editor are threaded through a small      *)
(* state-and-exception monad; the file system and the git subprocess     *)
(* are oracles of an environment record.                                 *)
(* ===================================================================== *)

From Stdlib Require Import ZArith List String Ascii Bool Lia.
From stdpp Require Import gmap strings list fin_maps.

Local Open Scope Z_scope.

(* --------------------------------------------------------------------- *)
(* Completions: a JavaScript call either returns or throws               *)
(* --------------------------------------------------------------------- *)

(** What a `throw` carries.  The catch clause of getGitBlame only asks
    whether the value is an `Error` and, if so, reads its `message`. *)
Inductive Exn : Type :=
  | ErrorObject (message : string)
  | OtherThrown.

Inductive Completion (A : Type) : Type :=
  | Normal (a : A)
  | Throw (e : Exn).
Arguments Normal {A} a.
Arguments Throw {A} e.

(* --------------------------------------------------------------------- *)
(* JavaScript strings                                                    *)
(* --------------------------------------------------------------------- *)

(** A JavaScript string is a sequence of code units; the embedding keeps
    the code units below 256, one [ascii] each.  Every prefix, separator
    and pattern of extension.ts is ASCII. *)
Module Js.

Definition LF : ascii := ascii_of_nat 10.

(** [s.startsWith(p)] *)
Fixpoint startsWith (s p : string) : bool :=
  match p, s with
  | EmptyString, _ => true
  | String _ _, EmptyString => false
  | String a p', String b s' => if Ascii.eqb a b then startsWith s' p' else false
  end.

(** [s.substring(n)]: the code units from index [n] to the end. *)
Fixpoint substring_from (n : nat) (s : string) : string :=
  match n, s with
  | O, _ => s
  | S _, EmptyString => EmptyString
  | S n', String _ s' => substring_from n' s'
  end.

(** [s.substring(0, n)]: at most the first [n] code units. *)
Fixpoint substring_to (n : nat) (s : string) : string :=
  match n, s with
  | O, _ => EmptyString
  | S _, EmptyString => EmptyString
  | S n', String c s' => String c (substring_to n' s')
  end.

(** [s.split(sep)] for a one-character separator: never empty, and a
    trailing separator leaves a last empty piece. *)
Fixpoint split (sep : ascii) (s : string) : list string :=
  match s with
  | EmptyString => [EmptyString]
  | String c s' =>
      if Ascii.eqb c sep then EmptyString :: split sep s'
      else match split sep s' with
           | piece :: rest => String c piece :: rest
           | [] => [String c EmptyString]
           end
  end.

(** [s.includes(p)].  The unanchored test of /.*is outside repository.*/
    succeeds exactly when the literal occurs: both [.*] may match the
    empty string and the search may start at any index. *)
Fixpoint includes (s p : string) : bool :=
  startsWith s p ||
  match s with
  | EmptyString => false
  | String _ s' => includes s' p
  end.

(** The character class [0-9a-f]. *)
Definition is_hex_lower (c : ascii) : bool :=
  let n := nat_of_ascii c in
  ((48 <=? n) && (n <=? 57) || (97 <=? n) && (n <=? 102))%nat.

(** [n] leading code units of [s], all in [0-9a-f]. *)
Fixpoint leading_hex (n : nat) (s : string) : bool :=
  match n, s with
  | O, _ => true
  | S _, EmptyString => false
  | S n', String c s' => is_hex_lower c && leading_hex n' s'
  end.

(** [line.match(/^[0-9a-f]{40}/)] is truthy. *)
Definition match_hash40 (line : string) : bool := leading_hex 40 line.

(* ---- parseInt(string) with no radix ------------------------------ *)

(** White space and line terminators among the code units below 256:
    TAB, LF, VT, FF, CR, SP and NBSP. *)
Definition is_white (c : ascii) : bool :=
  let n := nat_of_ascii c in
  ((9 <=? n) && (n <=? 13) || (n =? 32) || (n =? 160))%nat.

Fixpoint trim_start (s : string) : string :=
  match s with
  | String c s' => if is_white c then trim_start s' else s
  | EmptyString => EmptyString
  end.

(** Value of a code unit as a digit of radix 10 or 16. *)
Definition digit_value (radix : Z) (c : ascii) : option Z :=
  let n := Z.of_nat (nat_of_ascii c) in
  if (48 <=? n) && (n <=? 57) then Some (n - 48)
  else if (radix =? 16) && (97 <=? n) && (n <=? 102) then Some (n - 87)
  else if (radix =? 16) && (65 <=? n) && (n <=? 70) then Some (n - 55)
  else None.

(** Reads the longest run of radix digits at the front of [s];
    [acc] is the value so far and [seen] tells whether a digit was read. *)
Fixpoint read_digits (radix : Z) (s : string) (acc : Z) (seen : bool) : option Z :=
  match s with
  | String c s' =>
      match digit_value radix c with
      | Some d => read_digits radix s' (acc * radix + d) true
      | None => if seen then Some acc else None
      end
  | EmptyString => if seen then Some acc else None
  end.

Definition strip_sign (s : string) : Z * string :=
  match s with
  | String c s' =>
      if Ascii.eqb c "-" then (-1, s')
      else if Ascii.eqb c "+" then (1, s')
      else (1, s)
  | EmptyString => (1, s)
  end.

Definition strip_hex_prefix (s : string) : Z * string :=
  match s with
  | String c0 (String c1 s') =>
      if Ascii.eqb c0 "0" && (Ascii.eqb c1 "x" || Ascii.eqb c1 "X")
      then (16, s') else (10, s)
  | _ => (10, s)
  end.

(** [parseInt(s)].  [None] is NaN; [Some n] is the Number nearest to the
    integer [n] (exact up to 2^53; the two zeros are not told apart,
    the Date constructor maps both to time value 0). *)
Definition parseInt (s : string) : option Z :=
  let '(sign, s1) := strip_sign (trim_start s) in
  let '(radix, s2) := strip_hex_prefix s1 in
  match read_digits radix s2 0 false with
  | Some n => Some (sign * n)
  | None => None
  end.

End Js.

(* --------------------------------------------------------------------- *)
(* JavaScript Date: time values and toISOString (ECMA-262, 21.4.1)       *)
(* --------------------------------------------------------------------- *)

Module JsDate.

Definition msPerDay : Z := 86400000.
Definition maxTime : Z := 8640000000000000.

(** [new Date(timestamp * 1000)] for [timestamp = parseInt(..)]: the time
    value, or [None] for an invalid Date.  TimeClip rejects NaN and
    every value beyond 8.64e15 in magnitude.  For |n| <= 8.64e12 the
    Number n and the product n * 1000 are exact (below 2^53); for larger
    |n| the rounded product is at least 8.64e15 + 1000 in magnitude,
    itself a Number, because rounding is monotone.  So the test on the
    integer decides. *)
Definition time_of_seconds (timestamp : option Z) : option Z :=
  match timestamp with
  | None => None
  | Some n => if Z.abs (n * 1000) <=? maxTime then Some (n * 1000) else None
  end.

Definition Day (t : Z) : Z := t / msPerDay.
Definition TimeWithinDay (t : Z) : Z := t mod msPerDay.

Definition DayFromYear (y : Z) : Z :=
  365 * (y - 1970) + (y - 1969) / 4 - (y - 1901) / 100 + (y - 1601) / 400.

Definition DaysInYear (y : Z) : Z :=
  if negb (y mod 4 =? 0) then 365
  else if negb (y mod 100 =? 0) then 366
  else if negb (y mod 400 =? 0) then 365
  else 366.

(** The largest year whose first day is not after day [d]: the mean
    Gregorian year (146097 days in 400 years) gives a guess that is off
    by at most one; see [YearFromDay_spec]. *)
Definition YearFromDay (d : Z) : Z :=
  let y := 1970 + (d * 400) / 146097 in
  if d <? DayFromYear y then y - 1
  else if DayFromYear (y + 1) <=? d then y + 1
  else y.

Definition YearFromTime (t : Z) : Z := YearFromDay (Day t).
Definition InLeapYear (t : Z) : Z :=
  if DaysInYear (YearFromTime t) =? 366 then 1 else 0.
Definition DayWithinYear (t : Z) : Z := Day t - DayFromYear (YearFromTime t).

(** Month number, 0 for January. *)
Definition MonthFromTime (t : Z) : Z :=
  let d := DayWithinYear t in
  let leap := InLeapYear t in
  if d <? 31 then 0
  else if d <? 59 + leap then 1
  else if d <? 90 + leap then 2
  else if d <? 120 + leap then 3
  else if d <? 151 + leap then 4
  else if d <? 181 + leap then 5
  else if d <? 212 + leap then 6
  else if d <? 243 + leap then 7
  else if d <? 273 + leap then 8
  else if d <? 304 + leap then 9
  else if d <? 334 + leap then 10
  else 11.

(** Day of the month, from 1. *)
Definition DateFromTime (t : Z) : Z :=
  let d := DayWithinYear t in
  let leap := InLeapYear t in
  match MonthFromTime t with
  | 0 => d + 1
  | 1 => d - 30
  | 2 => d - 58 - leap
  | 3 => d - 89 - leap
  | 4 => d - 119 - leap
  | 5 => d - 150 - leap
  | 6 => d - 180 - leap
  | 7 => d - 211 - leap
  | 8 => d - 242 - leap
  | 9 => d - 272 - leap
  | 10 => d - 303 - leap
  | _ => d - 333 - leap
  end.

Definition HourFromTime (t : Z) : Z := (t / 3600000) mod 24.
Definition MinFromTime (t : Z) : Z := (t / 60000) mod 60.
Definition SecFromTime (t : Z) : Z := (t / 1000) mod 60.
Definition msFromTime (t : Z) : Z := t mod 1000.

Definition digit_char (d : Z) : ascii := ascii_of_nat (48 + Z.to_nat (d mod 10)).

(** The last [width] decimal digits of [n >= 0], zero padded. *)
Fixpoint pad (width : nat) (n : Z) : string :=
  match width with
  | O => EmptyString
  | S w => String.append (pad w (n / 10)) (String (digit_char n) EmptyString)
  end.

(** Years 0..9999 print as four digits, all others as a sign and six. *)
Definition year_string (y : Z) : string :=
  if (0 <=? y) && (y <=? 9999) then pad 4 y
  else if y <? 0 then String "-" (pad 6 (- y))
  else String "+" (pad 6 y).

(** [toISOString()] of a valid time value: YYYY-MM-DDTHH:mm:ss.sssZ *)
Definition iso_of_time (t : Z) : string :=
  String.concat EmptyString
    [ year_string (YearFromTime t); "-"%string; pad 2 (MonthFromTime t + 1);
      "-"%string; pad 2 (DateFromTime t); "T"%string;
      pad 2 (HourFromTime t); ":"%string; pad 2 (MinFromTime t); ":"%string;
      pad 2 (SecFromTime t); "."%string; pad 3 (msFromTime t); "Z"%string ].

(** [date.toISOString()]: an invalid Date throws a RangeError. *)
Definition toISOString (tv : option Z) : Completion string :=
  match tv with
  | Some t => Normal (iso_of_time t)
  | None => Throw (ErrorObject "Invalid time value")
  end.

End JsDate.

(* --------------------------------------------------------------------- *)
(* parseBlameOutput                                                      *)
(* --------------------------------------------------------------------- *)

(** [Partial<BlameInfo>]: every field may be missing.  The parser pushes
    the partial record as it stands (`currentBlame as BlameInfo`). *)
Record BlameInfo : Type := mkBlameInfo {
  hash : option string;
  author : option string;
  date : option string;
  message : option string;
  lineNumber : option Z
}.

Definition emptyBlame : BlameInfo := mkBlameInfo None None None None None.

Definition set_hash (v : string) (b : BlameInfo) : BlameInfo :=
  mkBlameInfo (Some v) (author b) (date b) (message b) (lineNumber b).
Definition set_author (v : string) (b : BlameInfo) : BlameInfo :=
  mkBlameInfo (hash b) (Some v) (date b) (message b) (lineNumber b).
Definition set_date (v : string) (b : BlameInfo) : BlameInfo :=
  mkBlameInfo (hash b) (author b) (Some v) (message b) (lineNumber b).
Definition set_message (v : string) (b : BlameInfo) : BlameInfo :=
  mkBlameInfo (hash b) (author b) (date b) (Some v) (lineNumber b).
Definition set_lineNumber (v : Z) (b : BlameInfo) : BlameInfo :=
  mkBlameInfo (hash b) (author b) (date b) (message b) (Some v).

(** The three variables the forEach callback closes over. *)
Record ParseState : Type := mkParseState {
  blame : list BlameInfo;
  currentBlame : BlameInfo;
  lineCounter : Z
}.

Definition parse_init : ParseState := mkParseState [] emptyBlame 0.

(** [new Date(parseInt(text) * 1000).toISOString().split('T')[0]] *)
Definition date_of_author_time (text : string) : Completion string :=
  match JsDate.toISOString (JsDate.time_of_seconds (Js.parseInt text)) with
  | Normal iso => Normal (hd EmptyString (Js.split "T" iso))
  | Throw e => Throw e
  end.

(** One call of the forEach callback. *)
Definition parse_line (line : string) (st : ParseState) : Completion ParseState :=
  if Js.startsWith line "author " then
    Normal (mkParseState (blame st)
              (set_author (Js.substring_from 7 line) (currentBlame st))
              (lineCounter st))
  else if Js.startsWith line "author-time " then
    match date_of_author_time (Js.substring_from 12 line) with
    | Normal d =>
        Normal (mkParseState (blame st) (set_date d (currentBlame st)) (lineCounter st))
    | Throw e => Throw e
    end
  else if Js.startsWith line "summary " then
    Normal (mkParseState (blame st)
              (set_message (Js.substring_from 8 line) (currentBlame st))
              (lineCounter st))
  else if Js.match_hash40 line then
    let n := lineCounter st + 1 in
    let finished := set_lineNumber n (set_hash (Js.substring_to 40 line) (currentBlame st)) in
    Normal (mkParseState (blame st ++ [finished]) emptyBlame n)
  else Normal st.

(** [lines.forEach(callback)]: a throwing callback ends the loop. *)
Fixpoint parse_lines (lines : list string) (st : ParseState) : Completion ParseState :=
  match lines with
  | [] => Normal st
  | line :: rest =>
      match parse_line line st with
      | Normal st' => parse_lines rest st'
      | Throw e => Throw e
      end
  end.

Definition parseBlameOutput (output : string) : Completion (list BlameInfo) :=
  match parse_lines (Js.split Js.LF output) parse_init with
  | Normal st => Normal (blame st)
  | Throw e => Throw e
  end.

(* --------------------------------------------------------------------- *)
(* The provider, the host editor and the outside world                   *)
(* --------------------------------------------------------------------- *)

(** One decoration.  `contentText` and `hoverMessage` are template strings
    over the fields of one record; the decoration keeps that record. *)
Record Decoration : Type := mkDecoration {
  range_line : Z;
  rendered : BlameInfo
}.

(** What updateDecorations reads from a [vscode.TextEditor]. *)
Record Editor : Type := mkEditor {
  editor_id : nat;
  fsPath : string;
  isUntitled : bool;
  scheme : string;
  lineCount : Z;
  selections : list (Z * Z)      (* start.line, end.line *)
}.

(** Calls that leave the provider, in program order. *)
Inductive Effect : Type :=
  | FsAccess (path : string)
  | Exec (command : string) (cwd : option string)
  | ShowErrorMessage (text : string)
  | StatusText (text : string)
  | StatusTooltip (text : string)
  | SetDecorations (editor : nat) (ds : list Decoration).

(** The world outside during one invocation: the file system, the
    subprocess runner, Node's path.dirname and the window's active editor. *)
Record Env : Type := mkEnv {
  fs_access : string -> bool;
  exec : string -> option string -> Completion string;
  path_dirname : string -> string;
  activeTextEditor : option Editor
}.

(** The fields of GitBlameProvider, the decorations the host holds for
    `decorationType`, and the trace of outgoing calls. *)
Record Provider : Type := mkProvider {
  enabled : bool;
  cache : gmap string (list BlameInfo);
  statusBarText : string;
  statusBarTooltip : option string;
  decorations : gmap nat (list Decoration);
  trace : list Effect
}.

(** The provider as its constructor leaves it. *)
Definition new_provider : Provider :=
  mkProvider true ∅ "$(git-commit) Git Blame" None ∅ [].

(* ---- the monad ------------------------------------------------------ *)

Definition M (A : Type) : Type := Provider -> Completion A * Provider.

Definition ret {A} (a : A) : M A := fun p => (Normal a, p).
Definition throw {A} (e : Exn) : M A := fun p => (Throw e, p).
Definition bind {A B} (c : M A) (k : A -> M B) : M B :=
  fun p => match c p with
           | (Normal a, p') => k a p'
           | (Throw e, p') => (Throw e, p')
           end.
Definition try_catch {A} (body : M A) (handler : Exn -> M A) : M A :=
  fun p => match body p with
           | (Normal a, p') => (Normal a, p')
           | (Throw e, p') => handler e p'
           end.
Definition lift {A} (c : Completion A) : M A := fun p => (c, p).

Notation "'let*' x ':=' c 'in' k" := (bind c (fun x => k))
  (at level 10, x pattern, c at level 100, k at level 200).
Notation "c ';;' k" := (bind c (fun _ => k))
  (at level 100, k at level 200, right associativity).

Definition emit (e : Effect) : M unit :=
  fun p => (Normal tt,
            mkProvider (enabled p) (cache p) (statusBarText p) (statusBarTooltip p)
                       (decorations p) (trace p ++ [e])).

Definition get_enabled : M bool := fun p => (Normal (enabled p), p).
Definition set_enabled (b : bool) : M unit :=
  fun p => (Normal tt,
            mkProvider b (cache p) (statusBarText p) (statusBarTooltip p)
                       (decorations p) (trace p)).

Definition cache_has (key : string) : M bool :=
  fun p => (Normal (bool_decide (is_Some (cache p !! key))), p).
Definition cache_get (key : string) : M (option (list BlameInfo)) :=
  fun p => (Normal (cache p !! key), p).
Definition cache_set (key : string) (v : list BlameInfo) : M unit :=
  fun p => (Normal tt,
            mkProvider (enabled p) (<[key := v]> (cache p)) (statusBarText p)
                       (statusBarTooltip p) (decorations p) (trace p)).

Definition set_status_text (s : string) : M unit :=
  fun p => (Normal tt,
            mkProvider (enabled p) (cache p) s (statusBarTooltip p)
                       (decorations p) (trace p ++ [StatusText s])).
Definition set_status_tooltip (s : string) : M unit :=
  fun p => (Normal tt,
            mkProvider (enabled p) (cache p) (statusBarText p) (Some s)
                       (decorations p) (trace p ++ [StatusTooltip s])).

(** [editor.setDecorations(this.decorationType, ds)] *)
Definition setDecorations (editor : nat) (ds : list Decoration) : M unit :=
  fun p => (Normal tt,
            mkProvider (enabled p) (cache p) (statusBarText p) (statusBarTooltip p)
                       (<[editor := ds]> (decorations p))
                       (trace p ++ [SetDecorations editor ds])).

(** [await fs.promises.access(path, F_OK)] *)
Definition access (env : Env) (path : string) : M unit :=
  emit (FsAccess path) ;;
  if fs_access env path then ret tt else throw (ErrorObject "ENOENT").

(** [await execAsync(command, {cwd})], yielding stdout. *)
Definition execAsync (env : Env) (command : string) (cwd : option string) : M string :=
  emit (Exec command cwd) ;; lift (exec env command cwd).

(* --------------------------------------------------------------------- *)
(* showError and getGitBlame                                             *)
(* --------------------------------------------------------------------- *)

Definition NOT_A_REPO_TEXT : string := "$(git-commit) Not a Git Repository".

Definition showError (message : string) : M unit :=
  let* shown := cache_has "error_shown" in
  if String.eqb message "Not a git repository" && shown then ret tt
  else if Js.includes message "is outside repository" then ret tt
  else
    cache_set "error_shown" [] ;;
    if String.eqb message "Git is not installed" then
      emit (ShowErrorMessage
              "Git is not installed. Please install Git to use blame features.")
    else if String.eqb message "Not a git repository" then
      set_status_text NOT_A_REPO_TEXT ;;
      set_status_tooltip "Current file is not in a Git repository"
    else if String.eqb message "File does not exist" then ret tt
    else emit (ShowErrorMessage (String.append "Git blame error: " message)).

Definition fileExists (env : Env) (filePath : string) : M bool :=
  try_catch (access env filePath ;; ret true) (fun _ => ret false).

Definition isGitInstalled (env : Env) : M bool :=
  try_catch (execAsync env "git --version" None ;; ret true) (fun _ => ret false).

(** `!!stdout` is false only for the empty string. *)
Definition isGitRepository (env : Env) (filePath : string) : M bool :=
  try_catch
    (let* stdout := execAsync env "git rev-parse --git-dir"
                      (Some (path_dirname env filePath)) in
     ret (negb (String.eqb stdout EmptyString)))
    (fun _ => ret false).

Definition dquote : string := String (ascii_of_nat 34) EmptyString.

(** The template string of the blame query. *)
Definition blame_command (filePath : string) : string :=
  String.concat EmptyString ["git blame --line-porcelain "%string; dquote; filePath; dquote].

Definition error_message (error : Exn) : string :=
  match error with
  | ErrorObject m => m
  | OtherThrown => "Unknown error"
  end.

Definition getGitBlame (env : Env) (filePath : string) : M (list BlameInfo) :=
  try_catch
    (let* there := fileExists env filePath in
     if negb there then throw (ErrorObject "File does not exist") else
     let* installed := isGitInstalled env in
     if negb installed then throw (ErrorObject "Git is not installed") else
     let* inside := isGitRepository env filePath in
     if negb inside then throw (ErrorObject "Not a git repository") else
     let* stdout := execAsync env (blame_command filePath)
                      (Some (path_dirname env filePath)) in
     lift (parseBlameOutput stdout))
    (fun error => showError (error_message error) ;; ret []).

(* --------------------------------------------------------------------- *)
(* updateDecorations, toggle, clear                                      *)
(* --------------------------------------------------------------------- *)

(** [vscode.window.activeTextEditor.setDecorations(type, [])], if any. *)
Definition clear (env : Env) : M unit :=
  match activeTextEditor env with
  | Some active => setDecorations (editor_id active) []
  | None => ret tt
  end.

(** The line indices one selection adds: start.line .. end.line. *)
Definition selection_lines (sel : Z * Z) : list Z :=
  seqZ (fst sel) (snd sel - fst sel + 1).

(** The `Set<number>` built from all selections. *)
Definition selectedLines (sels : list (Z * Z)) : gset Z :=
  list_to_set (flat_map selection_lines sels).

(** [selectedLines.has(info.lineNumber - 1)]; a missing lineNumber gives
    NaN, which no set of line indices holds. *)
Definition is_selected (selected : gset Z) (info : BlameInfo) : bool :=
  match lineNumber info with
  | Some n => bool_decide (n - 1 ∈ selected)
  | None => false
  end.

(** [blame.filter(info => selectedLines.has(info.lineNumber - 1))] *)
Definition filter_selected (selected : gset Z) (blame : list BlameInfo) : list BlameInfo :=
  List.filter (is_selected selected) blame.

(** [editor.document.lineAt(line)] throws outside the document. *)
Definition lineAt (ed : Editor) (line : Z) : Completion Z :=
  if (0 <=? line) && (line <? lineCount ed) then Normal line
  else Throw (ErrorObject "Illegal value for `line`").

Definition decoration_of (ed : Editor) (info : BlameInfo) : Completion Decoration :=
  match lineNumber info with
  | Some n =>
      match lineAt ed (n - 1) with
      | Normal r => Normal (mkDecoration r info)
      | Throw e => Throw e
      end
  | None => Throw (ErrorObject "Illegal value for `line`")
  end.

(** [.map(info => ...)], stopping at the first throw. *)
Fixpoint map_decorations (ed : Editor) (infos : list BlameInfo) : Completion (list Decoration) :=
  match infos with
  | [] => Normal []
  | info :: rest =>
      match decoration_of ed info with
      | Normal d =>
          match map_decorations ed rest with
          | Normal ds => Normal (d :: ds)
          | Throw e => Throw e
          end
      | Throw e => Throw e
      end
  end.

Definition ACTIVE_TEXT : string := "$(git-commit) Git Blame".

(** One invocation, its awaited calls run to completion in place.  The
    guard `!this.enabled || !editor` comes first, before `this.clear()`. *)
Definition updateDecorations (env : Env) (editor : option Editor) : M unit :=
  let* on := get_enabled in
  match editor with
  | None => ret tt
  | Some ed =>
      if negb on then ret tt else
      clear env ;;
      let filePath := fsPath ed in
      match selections ed with
      | [] => ret tt
      | _ :: _ =>
          let selected := selectedLines (selections ed) in
          if (size selected =? 0)%nat then ret tt else
          if isUntitled ed || negb (String.eqb (scheme ed) "file") then ret tt else
          let* cached := cache_get filePath in
          let* blame :=
            match cached with
            | Some b => ret b
            | None =>
                let* fetched := getGitBlame env filePath in
                (if (0 <? length fetched)%nat then cache_set filePath fetched else ret tt) ;;
                ret fetched
            end in
          let* ds := lift (map_decorations ed (filter_selected selected blame)) in
          setDecorations (editor_id ed) ds ;;
          if (0 <? length blame)%nat then
            set_status_text ACTIVE_TEXT ;;
            set_status_tooltip "Click to toggle Git blame"
          else ret tt
      end
  end.

(** The call to updateDecorations is not awaited.  The embedding runs it
    to completion before the label is written (the program writes the
    label when the call reaches its first await) and drops a rejection,
    which toggle never sees.  No statement below depends on the order of
    these writes. *)
Definition toggle (env : Env) : M unit :=
  let* on := get_enabled in
  set_enabled (negb on) ;;
  (if negb on
   then try_catch (updateDecorations env (activeTextEditor env)) (fun _ => ret tt)
   else clear env) ;;
  set_status_text (if negb on then ACTIVE_TEXT else "$(git-commit) Git Blame (Off)").

(* --------------------------------------------------------------------- *)
(* A process lifetime: the events the extension reacts to                *)
(* --------------------------------------------------------------------- *)

Inductive Event : Type :=
  | EvUpdate (env : Env) (editor : option Editor)
  | EvToggle (env : Env).

Definition step (p : Provider) (ev : Event) : Provider :=
  match ev with
  | EvUpdate env editor => snd (updateDecorations env editor p)
  | EvToggle env => snd (toggle env p)
  end.

Definition run (evs : list Event) (p : Provider) : Provider := fold_left step evs p.

(** The "not a repository" notification: the status text written by
    showError. *)
Definition is_not_repo_notice (e : Effect) : bool :=
  match e with
  | StatusText s => String.eqb s NOT_A_REPO_TEXT
  | _ => false
  end.

Definition not_repo_notices (p : Provider) : nat :=
  length (List.filter is_not_repo_notice (trace p)).

(** Calls that spawn a subprocess. *)
Definition is_exec (e : Effect) : bool :=
  match e with
  | Exec _ _ => true
  | _ => false
  end.

Definition is_outside_call (e : Effect) : bool :=
  match e with
  | Exec _ _ | FsAccess _ => true
  | _ => false
  end.

(* --------------------------------------------------------------------- *)
(* Vocabulary of the statements                                          *)
(* --------------------------------------------------------------------- *)

(** The text after `author-time ` yields a valid Date. *)
Definition valid_timestamp (text : string) : bool :=
  match JsDate.time_of_seconds (Js.parseInt text) with
  | Some _ => true
  | None => false
  end.

(** A line the callback handles without throwing: every line but an
    `author-time ` line whose timestamp gives an invalid Date. *)
Definition line_ok (line : string) : bool :=
  negb (Js.startsWith line "author-time ") || valid_timestamp (Js.substring_from 12 line).

(** The lines that close a block. *)
Definition hash_lines (lines : list string) : list string :=
  List.filter Js.match_hash40 lines.

(** A line inside a block that has no `author-time `: neither such a line
    nor a closing hash line. *)
Definition plain_line (line : string) : bool :=
  negb (Js.startsWith line "author-time ") && negb (Js.match_hash40 line).

(** The lines before a block leave no open block behind: there are none,
    or the last one is a hash line. *)
Definition closed_before (pre : list string) : bool :=
  match rev pre with
  | [] => true
  | l :: _ => Js.match_hash40 l
  end.

(** The value the last line with the given prefix leaves in a field. *)
Definition last_with (prefix : string) (lines : list string) (start : option string)
  : option string :=
  fold_left
    (fun acc line =>
       if Js.startsWith line prefix
       then Some (Js.substring_from (String.length prefix) line)
       else acc)
    lines start.

(** The provider with further calls on its trace. *)
Definition traced (es : list Effect) (p : Provider) : Provider :=
  mkProvider (enabled p) (cache p) (statusBarText p) (statusBarTooltip p)
             (decorations p) (trace p ++ es).

(** The error taxonomy of the fetch path, in the words of the design:
    which check fails first, or what the blame query gives. *)
Inductive FetchOutcome : Type :=
  | FileMissing
  | ToolNotInstalled
  | NotARepository
  | QueryFailed (raw : string)
  | Fetched (records : list BlameInfo).

Definition version_call : Effect := Exec "git --version" None.
Definition repo_call (env : Env) (filePath : string) : Effect :=
  Exec "git rev-parse --git-dir" (Some (path_dirname env filePath)).
Definition blame_call (env : Env) (filePath : string) : Effect :=
  Exec (blame_command filePath) (Some (path_dirname env filePath)).

(** The checks in their fixed order: path on disk, tool installed, path
    inside a repository; then the blame query and the parser. *)
Definition fetch_outcome (env : Env) (filePath : string) : FetchOutcome :=
  if negb (fs_access env filePath) then FileMissing else
  match exec env "git --version" None with
  | Throw _ => ToolNotInstalled
  | Normal _ =>
      match exec env "git rev-parse --git-dir" (Some (path_dirname env filePath)) with
      | Throw _ => NotARepository
      | Normal out =>
          if String.eqb out EmptyString then NotARepository else
          match exec env (blame_command filePath) (Some (path_dirname env filePath)) with
          | Throw e => QueryFailed (error_message e)
          | Normal stdout =>
              match parseBlameOutput stdout with
              | Throw e => QueryFailed (error_message e)
              | Normal records => Fetched records
              end
          end
      end
  end.

(** The outside calls a fetch with that outcome has made, in order. *)
Definition fetch_calls (env : Env) (filePath : string) (o : FetchOutcome) : list Effect :=
  match o with
  | FileMissing => [FsAccess filePath]
  | ToolNotInstalled => [FsAccess filePath; version_call]
  | NotARepository => [FsAccess filePath; version_call; repo_call env filePath]
  | QueryFailed _ | Fetched _ =>
      [FsAccess filePath; version_call; repo_call env filePath; blame_call env filePath]
  end.

(** The records a fetch with that outcome hands back. *)
Definition fetch_result (o : FetchOutcome) : list BlameInfo :=
  match o with
  | Fetched records => records
  | _ => []
  end.

(** The message handed to showError for a failed fetch. *)
Definition classified_message (o : FetchOutcome) : option string :=
  match o with
  | FileMissing => Some "File does not exist"%string
  | ToolNotInstalled => Some "Git is not installed"%string
  | NotARepository => Some "Not a git repository"%string
  | QueryFailed raw => Some raw
  | Fetched _ => None
  end.

Definition has_error_marker (p : Provider) : Prop :=
  is_Some (cache p !! "error_shown"%string).

(** [follows p p']: from [p] to [p'] the error marker is kept, at most one
    "not a repository" notice is added, none once the marker is set, and
    an added notice leaves the marker set. *)
Definition follows (p p' : Provider) : Prop :=
  (has_error_marker p -> has_error_marker p' /\ not_repo_notices p' = not_repo_notices p)
  /\ (not_repo_notices p <= not_repo_notices p' <= not_repo_notices p + 1)%nat
  /\ (not_repo_notices p' = S (not_repo_notices p) -> has_error_marker p').

(** A computation all of whose runs satisfy [follows]. *)
Definition steady {A} (c : M A) : Prop := forall p, follows p (snd (c p)).

(** A computation that never throws. *)
Definition returns {A} (c : M A) : Prop := forall p, exists a, fst (c p) = Normal a.

(* --------------------------------------------------------------------- *)
(* Vocabulary for the parser read block by block                         *)
(* --------------------------------------------------------------------- *)

(** The date the last `author-time ` line leaves behind.  An invalid one
    makes the callback throw, so in a parse that returns each one is
    valid. *)
Definition last_date (lines : list string) (start : option string) : option string :=
  fold_left
    (fun acc line =>
       if Js.startsWith line "author-time " then
         match date_of_author_time (Js.substring_from 12 line) with
         | Normal d => Some d
         | Throw _ => acc
         end
       else acc)
    lines start.

(** The fields the lines of one block leave in the partial record. *)
Definition block_fields (body : list string) : BlameInfo :=
  mkBlameInfo None (last_with "author " body None) (last_date body None)
              (last_with "summary " body None) None.

(** The blocks of a text: the lines before each hash line, with that
    line.  [pending] holds the lines read since the last hash line, the
    latest first; lines after the last hash line belong to no block. *)
Fixpoint blocks_of (lines pending : list string) : list (list string * string) :=
  match lines with
  | [] => []
  | l :: rest =>
      if Js.match_hash40 l then (rev pending, l) :: blocks_of rest []
      else blocks_of rest (l :: pending)
  end.

(** The record of one block, given its number. *)
Definition record_of_block (n : Z) (b : list string * string) : BlameInfo :=
  set_lineNumber n (set_hash (Js.substring_to 40 (snd b)) (block_fields (fst b))).

Fixpoint number_blocks (n : Z) (bs : list (list string * string)) : list BlameInfo :=
  match bs with
  | [] => []
  | b :: rest => record_of_block n b :: number_blocks (n + 1) rest
  end.

(** A line that neither closes a block nor makes the callback throw. *)
Definition quiet_line (line : string) : bool :=
  line_ok line && negb (Js.match_hash40 line).

(** The calendar date of a day number (days since 1970-01-01, UTC), as
    toISOString prints it before the `T`. *)
Definition calendar_date (day : Z) : string :=
  String.append (JsDate.year_string (JsDate.YearFromDay day))
    (String.append "-"
       (String.append (JsDate.pad 2 (JsDate.MonthFromTime (day * JsDate.msPerDay) + 1))
          (String.append "-" (JsDate.pad 2 (JsDate.DateFromTime (day * JsDate.msPerDay)))))).

(** No occurrence of the code unit [c] in [s]. *)
Fixpoint free_of (c : ascii) (s : string) : bool :=
  match s with
  | EmptyString => true
  | String a s' => negb (Ascii.eqb a c) && free_of c s'
  end.

(* --------------------------------------------------------------------- *)
(* Vocabulary for the reconciler read in direct style                    *)
(* --------------------------------------------------------------------- *)

(** The provider after a fetch: the calls of the fetch on the trace and,
    for a failed fetch, showError run on its message. *)
Definition after_fetch (env : Env) (filePath : string) (p : Provider) : Provider :=
  match classified_message (fetch_outcome env filePath) with
  | Some msg =>
      snd (showError msg (traced (fetch_calls env filePath (fetch_outcome env filePath)) p))
  | None => traced (fetch_calls env filePath (fetch_outcome env filePath)) p
  end.

(** The three early returns after `this.clear()`: no selection, no
    selected line, or a document that is unsaved or not a file. *)
Definition skips_fetch (ed : Editor) : bool :=
  match selections ed with
  | [] => true
  | _ :: _ =>
      (size (selectedLines (selections ed)) =? 0)%nat
      || isUntitled ed || negb (String.eqb (scheme ed) "file")
  end.

(** The records a reconcile works with, and the provider once they are
    there: the cached ones, or fetched ones, cached if there are any. *)
Definition resolve_blame (env : Env) (ed : Editor) (p : Provider)
  : list BlameInfo * Provider :=
  match cache p !! fsPath ed with
  | Some cached => (cached, p)
  | None =>
      let fetched := fetch_result (fetch_outcome env (fsPath ed)) in
      let q := after_fetch env (fsPath ed) p in
      (fetched, if (0 <? length fetched)%nat then snd (cache_set (fsPath ed) fetched q) else q)
  end.

(** updateDecorations with the blame on and an editor, step by step. *)
Definition reconcile (env : Env) (ed : Editor) (p : Provider) : Completion unit * Provider :=
  let p1 := snd (clear env p) in
  if skips_fetch ed then (Normal tt, p1) else
  let '(records, p2) := resolve_blame env ed p1 in
  match map_decorations ed (filter_selected (selectedLines (selections ed)) records) with
  | Throw e => (Throw e, p2)
  | Normal ds =>
      let p3 := snd (setDecorations (editor_id ed) ds p2) in
      (Normal tt,
       if (0 <? length records)%nat
       then snd (set_status_tooltip "Click to toggle Git blame"
                   (snd (set_status_text ACTIVE_TEXT p3)))
       else p3)
  end.

(** The error notifications on a trace. *)
Definition is_error_message (e : Effect) : bool :=
  match e with
  | ShowErrorMessage _ => true
  | _ => false
  end.

(** The records are numbered 1, 2, ... in order. *)
Definition numbered (records : list BlameInfo) : Prop :=
  map lineNumber records = map Some (seqZ 1 (Z.of_nat (length records))).

Definition is_update (ev : Event) : bool :=
  match ev with
  | EvUpdate _ _ => true
  | EvToggle _ => false
  end.

(** From [p] to [p'] no cached entry other than the marker is lost or
    changed. *)
Definition keeps_entries (p p' : Provider) : Prop :=
  forall k v, k <> "error_shown"%string -> cache p !! k = Some v -> cache p' !! k = Some v.

(** Every cached list is numbered 1, 2, ..., and only the marker key may
    hold an empty one. *)
Definition cache_sound (p : Provider) : Prop :=
  forall k v,
    cache p !! k = Some v -> numbered v /\ (k <> "error_shown"%string -> v <> []).

Definition GIT_MISSING_TEXT : string :=
  "Git is not installed. Please install Git to use blame features.".

(** A line none of the four branches of the callback takes. *)
Definition other_line (line : string) : bool :=
  negb (Js.startsWith line "author ") && negb (Js.startsWith line "author-time ")
  && negb (Js.startsWith line "summary ") && negb (Js.match_hash40 line).

(* --------------------------------------------------------------------- *)
(* Concrete inputs                                                       *)
(* --------------------------------------------------------------------- *)

Definition HASH_A : string := "aaaaaaaaaaaaaaaaaaaaaaaaaaaaaaaaaaaaaaaa".

(** One well-formed block, closed by a hash line with trailing text. *)
Definition alice_text : string :=
"author Alice
author-time 1700000000
summary Fix bug
aaaaaaaaaaaaaaaaaaaaaaaaaaaaaaaaaaaaaaaa extra
".

(** The same block with a timestamp that is not a number. *)
Definition bad_time_text : string :=
"author Alice
author-time yesterday
summary Fix bug
aaaaaaaaaaaaaaaaaaaaaaaaaaaaaaaaaaaaaaaa extra
".

(** A block without its `author-time ` line. *)
Definition no_time_text : string :=
"author Alice
summary Fix bug
aaaaaaaaaaaaaaaaaaaaaaaaaaaaaaaaaaaaaaaa 1 1 1
".

(** Ten complete records, numbered 1..10. *)
Definition ten_records : list BlameInfo :=
  map (fun n => mkBlameInfo (Some HASH_A) (Some "Alice"%string) (Some "2023-11-14"%string)
                            (Some "Fix bug"%string) (Some n))
      (seqZ 1 10).

(** A git that knows the file: every query succeeds and the blame query
    prints the block of Alice. *)
Definition git_ok (command : string) (cwd : option string) : Completion string :=
  if String.eqb command "git --version" then Normal "git version 2.43.0"%string
  else if String.eqb command "git rev-parse --git-dir" then Normal ".git"%string
  else Normal alice_text.

(** A git outside any repository. *)
Definition git_no_repo (command : string) (cwd : option string) : Completion string :=
  if String.eqb command "git --version" then Normal "git version 2.43.0"%string
  else Throw (ErrorObject "Command failed: fatal: not a git repository").

Definition editor_a : Editor := mkEditor 1 "/repo/a.txt" false "file" 1 [(0, 0)].
Definition editor_b : Editor := mkEditor 2 "/repo/b.txt" false "file" 1 [(0, 0)].
Definition editor_untitled : Editor := mkEditor 3 "Untitled-1" true "untitled" 1 [(0, 0)].

Definition env_a : Env := mkEnv (fun _ => true) git_ok (fun _ => "/repo"%string) (Some editor_a).
Definition env_b : Env := mkEnv (fun _ => true) git_ok (fun _ => "/repo"%string) (Some editor_b).
Definition env_no_repo : Env :=
  mkEnv (fun _ => true) git_no_repo (fun _ => "/tmp"%string) (Some editor_a).

(** Editor a gets its annotation, the user moves to editor b beside it
    and turns the blame off there. *)
Definition off_beside_a : Provider :=
  run [EvUpdate env_a (Some editor_a); EvUpdate env_b (Some editor_b); EvToggle env_b]
      new_provider.

Definition alice_record : BlameInfo :=
  mkBlameInfo (Some HASH_A) (Some "Alice"%string) (Some "2023-11-14"%string)
              (Some "Fix bug"%string) (Some 1).

(** Editor a with ten lines, the lines 2, 3 and 5 selected, and the ten
    records of its file already in the cache. *)
Definition editor_selecting : Editor :=
  mkEditor 1 "/repo/a.txt" false "file" 10 [(2, 3); (5, 5)].

Definition provider_cached : Provider :=
  mkProvider true {[ "/repo/a.txt"%string := ten_records ]} ACTIVE_TEXT None ∅ [].

Definition HASH_B : string := "bbbbbbbbbbbbbbbbbbbbbbbbbbbbbbbbbbbbbbbb".

(** Two blocks and an unfinished third: the second block has only a
    summary, and the last line is followed by no hash line. *)
Definition two_blocks_text : string :=
"author Alice
author-time 1700000000
summary Fix bug
aaaaaaaaaaaaaaaaaaaaaaaaaaaaaaaaaaaaaaaa 1 1 1
summary Second
bbbbbbbbbbbbbbbbbbbbbbbbbbbbbbbbbbbbbbbb 2 2 1
author Carol
".

(** A machine without git. *)
Definition git_missing (command : string) (cwd : option string) : Completion string :=
  Throw (ErrorObject "Command failed: git --version").

Definition env_no_git : Env :=
  mkEnv (fun _ => true) git_missing (fun _ => "/repo"%string) (Some editor_a).

Definition OUTSIDE_TEXT : string :=
  "Command failed: fatal: '/repo/a.txt' is outside repository at '/other'".

(** A git whose blame query fails because the file is outside the
    repository it found. *)
Definition git_outside (command : string) (cwd : option string) : Completion string :=
  if String.eqb command "git --version" then Normal "git version 2.43.0"%string
  else if String.eqb command "git rev-parse --git-dir" then Normal ".git"%string
  else Throw (ErrorObject OUTSIDE_TEXT).

Definition env_outside : Env :=
  mkEnv (fun _ => true) git_outside (fun _ => "/repo"%string) (Some editor_a).

(** A git whose blame output carries a timestamp that is no number. *)
Definition git_bad_time (command : string) (cwd : option string) : Completion string :=
  if String.eqb command "git --version" then Normal "git version 2.43.0"%string
  else if String.eqb command "git rev-parse --git-dir" then Normal ".git"%string
  else Normal bad_time_text.

Definition env_bad_time : Env :=
  mkEnv (fun _ => true) git_bad_time (fun _ => "/repo"%string) (Some editor_a).

(* ===================================================================== *)
(* Facts about the string primitives                                     *)
(* ===================================================================== *)

Section StringFacts.

Lemma startsWith_cons (a c : ascii) (p s : string) :
  Js.startsWith (String c s) (String a p)
  = (if Ascii.eqb a c then Js.startsWith s p else false).
Proof. reflexivity. Qed.

Lemma leading_hex_S (n : nat) (c : ascii) (s : string) :
  Js.leading_hex (S n) (String c s) = Js.is_hex_lower c && Js.leading_hex n s.
Proof. reflexivity. Qed.

Lemma startsWith_inv (s p : string) :
  Js.startsWith s p = true ->
  s = String.append p (Js.substring_from (String.length p) s).
Proof.
  revert s; induction p as [|a p IH]; intros s H.
  - reflexivity.
  - destruct s as [|b s]; simpl in H; [discriminate|].
    destruct (Ascii.eqb_spec a b) as [->|]; [|discriminate].
    change (String b s =
            String b (String.append p (Js.substring_from (String.length p) s))).
    f_equal. now apply IH.
Qed.

Lemma author_time_not_author (line : string) :
  Js.startsWith line "author-time " = true -> Js.startsWith line "author " = false.
Proof. intros H; apply startsWith_inv in H; rewrite H; reflexivity. Qed.

Lemma summary_not_author (line : string) :
  Js.startsWith line "summary " = true ->
  Js.startsWith line "author " = false /\ Js.startsWith line "author-time " = false.
Proof. intros H; apply startsWith_inv in H; rewrite H; split; reflexivity. Qed.

Lemma author_not_others (line : string) :
  Js.startsWith line "author " = true ->
  Js.startsWith line "author-time " = false /\ Js.startsWith line "summary " = false.
Proof. intros H; apply startsWith_inv in H; rewrite H; split; reflexivity. Qed.

(** A hash line takes the fourth branch of the callback: its second
    character is a hex digit, not the `u` of `author`, and its first is
    not the `s` of `summary`. *)
Lemma hash_line_unprefixed (line : string) :
  Js.match_hash40 line = true ->
  Js.startsWith line "author " = false
  /\ Js.startsWith line "author-time " = false
  /\ Js.startsWith line "summary " = false.
Proof.
  unfold Js.match_hash40.
  destruct line as [|c0 [|c1 r]]; try discriminate.
  - rewrite (leading_hex_S 39), andb_false_r; discriminate.
  - rewrite (leading_hex_S 39), (leading_hex_S 38).
    intros H. apply andb_true_iff in H as [H0 H].
    apply andb_true_iff in H as [H1 _].
    repeat split; rewrite startsWith_cons.
    + destruct (Ascii.eqb_spec "a" c0); [|reflexivity].
      rewrite startsWith_cons.
      destruct (Ascii.eqb_spec "u" c1) as [<-|]; [discriminate|reflexivity].
    + destruct (Ascii.eqb_spec "a" c0); [|reflexivity].
      rewrite startsWith_cons.
      destruct (Ascii.eqb_spec "u" c1) as [<-|]; [discriminate|reflexivity].
    + destruct (Ascii.eqb_spec "s" c0) as [<-|]; [discriminate|reflexivity].
Qed.

End StringFacts.

(* ===================================================================== *)
(* The Date model against ECMA-262                                       *)
(* ===================================================================== *)

(** YearFromTime is "the largest year whose first day is not after t". *)
Lemma YearFromDay_spec (d : Z) :
  JsDate.DayFromYear (JsDate.YearFromDay d) <= d
  /\ d < JsDate.DayFromYear (JsDate.YearFromDay d + 1).
Proof.
  unfold JsDate.YearFromDay.
  set (y := 1970 + d * 400 / 146097).
  assert (Hy : 146097 * (y - 1970) <= d * 400 < 146097 * (y - 1970) + 146097).
  { unfold y. pose proof (Z.div_mod (d * 400) 146097 ltac:(lia)).
    pose proof (Z.mod_pos_bound (d * 400) 146097 ltac:(lia)). lia. }
  clearbody y.
  destruct (Z.ltb_spec d (JsDate.DayFromYear y)) as [Hlt|Hge].
  - unfold JsDate.DayFromYear in *.
    replace (y - 1 + 1) with y by lia.
    split; [|exact Hlt].
    pose proof (Z.div_mod (y - 1 - 1969) 4 ltac:(lia)).
    pose proof (Z.mod_pos_bound (y - 1 - 1969) 4 ltac:(lia)).
    pose proof (Z.div_mod (y - 1 - 1901) 100 ltac:(lia)).
    pose proof (Z.mod_pos_bound (y - 1 - 1901) 100 ltac:(lia)).
    pose proof (Z.div_mod (y - 1 - 1601) 400 ltac:(lia)).
    pose proof (Z.mod_pos_bound (y - 1 - 1601) 400 ltac:(lia)).
    lia.
  - destruct (Z.leb_spec (JsDate.DayFromYear (y + 1)) d) as [Hle|Hgt].
    + unfold JsDate.DayFromYear in *.
      split; [exact Hle|].
      pose proof (Z.div_mod (y + 1 + 1 - 1969) 4 ltac:(lia)).
      pose proof (Z.mod_pos_bound (y + 1 + 1 - 1969) 4 ltac:(lia)).
      pose proof (Z.div_mod (y + 1 + 1 - 1901) 100 ltac:(lia)).
      pose proof (Z.mod_pos_bound (y + 1 + 1 - 1901) 100 ltac:(lia)).
      pose proof (Z.div_mod (y + 1 + 1 - 1601) 400 ltac:(lia)).
      pose proof (Z.mod_pos_bound (y + 1 + 1 - 1601) 400 ltac:(lia)).
      lia.
    + split; [exact Hge|exact Hgt].
Qed.

(** Known values of the primitives. *)
Example iso_epoch : JsDate.iso_of_time 0 = "1970-01-01T00:00:00.000Z"%string.
Proof. reflexivity. Qed.

Example iso_before_epoch : JsDate.iso_of_time (-1) = "1969-12-31T23:59:59.999Z"%string.
Proof. reflexivity. Qed.

Example iso_leap_day : JsDate.iso_of_time 951782400000 = "2000-02-29T00:00:00.000Z"%string.
Proof. reflexivity. Qed.

Example iso_last_time :
  JsDate.iso_of_time JsDate.maxTime = "+275760-09-13T00:00:00.000Z"%string.
Proof. vm_compute. reflexivity. Qed.

Example iso_first_time :
  JsDate.iso_of_time (- JsDate.maxTime) = "-271821-04-20T00:00:00.000Z"%string.
Proof. vm_compute. reflexivity. Qed.

Example parseInt_stops_at_text : Js.parseInt "  42abc" = Some 42.
Proof. reflexivity. Qed.

Example parseInt_hex : Js.parseInt "-0x1F" = Some (-31).
Proof. reflexivity. Qed.

Example parseInt_nan : Js.parseInt "yesterday" = None.
Proof. reflexivity. Qed.

Example split_trailing_separator :
  Js.split "T" "aTbT" = ["a"%string; "b"%string; EmptyString].
Proof. reflexivity. Qed.

(* ===================================================================== *)
(* parseBlameOutput                                                      *)
(* ===================================================================== *)

Section ParserFacts.

Lemma parse_line_ok (line : string) (st : ParseState) :
  line_ok line = true -> exists st', parse_line line st = Normal st'.
Proof.
  intros Hok. unfold parse_line.
  destruct (Js.startsWith line "author "); [eauto|].
  destruct (Js.startsWith line "author-time ") eqn:Ht.
  - unfold line_ok in Hok. rewrite Ht in Hok. simpl in Hok.
    unfold valid_timestamp in Hok. unfold date_of_author_time.
    destruct (JsDate.time_of_seconds _); [simpl; eauto|discriminate].
  - destruct (Js.startsWith line "summary "); [eauto|].
    destruct (Js.match_hash40 line); eauto.
Qed.

Lemma parse_line_bad (line : string) (st : ParseState) :
  line_ok line = false ->
  parse_line line st = Throw (ErrorObject "Invalid time value").
Proof.
  intros Hbad. unfold line_ok in Hbad.
  apply orb_false_iff in Hbad as [Ht Hv].
  apply negb_false_iff in Ht.
  unfold parse_line. rewrite (author_time_not_author _ Ht), Ht.
  unfold valid_timestamp in Hv. unfold date_of_author_time.
  destruct (JsDate.time_of_seconds _); [discriminate|reflexivity].
Qed.

Lemma parse_lines_ok (lines : list string) :
  forall st, forallb line_ok lines = true ->
             exists st', parse_lines lines st = Normal st'.
Proof.
  induction lines as [|line rest IH]; intros st H; simpl.
  - eauto.
  - simpl in H. apply andb_true_iff in H as [Hl Hr].
    destruct (parse_line_ok line st Hl) as [st1 ->]. now apply IH.
Qed.

Lemma parse_lines_bad (lines : list string) :
  forall st, forallb line_ok lines = false ->
             parse_lines lines st = Throw (ErrorObject "Invalid time value").
Proof.
  induction lines as [|line rest IH]; intros st H; simpl in *.
  - discriminate.
  - destruct (line_ok line) eqn:Hl; simpl in H.
    + destruct (parse_line_ok line st Hl) as [st1 ->]. now apply IH.
    + now rewrite parse_line_bad.
Qed.

Lemma parse_lines_app (xs ys : list string) :
  forall st,
    parse_lines (xs ++ ys) st =
    match parse_lines xs st with
    | Normal st' => parse_lines ys st'
    | Throw e => Throw e
    end.
Proof.
  induction xs as [|x xs IH]; intros st; simpl; [reflexivity|].
  destruct (parse_line x st); [apply IH|reflexivity].
Qed.

(** What one line does to the result list and the counter. *)
Lemma parse_line_step (line : string) (st st1 : ParseState) :
  parse_line line st = Normal st1 ->
  (Js.match_hash40 line = true
   /\ st1 = mkParseState
              (blame st ++ [set_lineNumber (lineCounter st + 1)
                              (set_hash (Js.substring_to 40 line) (currentBlame st))])
              emptyBlame (lineCounter st + 1))
  \/ (Js.match_hash40 line = false
      /\ blame st1 = blame st /\ lineCounter st1 = lineCounter st).
Proof.
  unfold parse_line. intros H.
  destruct (Js.match_hash40 line) eqn:Hh.
  - destruct (hash_line_unprefixed line Hh) as (Ha & Ht & Hs).
    rewrite Ha, Ht, Hs in H. injection H as <-. now left.
  - right. split; [reflexivity|].
    destruct (Js.startsWith line "author "); [injection H as <-; now split|].
    destruct (Js.startsWith line "author-time ").
    { destruct (date_of_author_time _); [injection H as <-; now split|discriminate]. }
    destruct (Js.startsWith line "summary "); injection H as <-; now split.
Qed.

(** The records a run of lines appends: one per hash line, numbered on
    from the counter, carrying the first 40 characters of that line. *)
Lemma parse_lines_records (lines : list string) :
  forall st st',
    parse_lines lines st = Normal st' ->
    exists new,
      blame st' = blame st ++ new
      /\ lineCounter st' = lineCounter st + Z.of_nat (length (hash_lines lines))
      /\ map lineNumber new
         = map Some (seqZ (lineCounter st + 1) (Z.of_nat (length (hash_lines lines))))
      /\ map hash new
         = map (fun l => Some (Js.substring_to 40 l)) (hash_lines lines).
Proof.
  induction lines as [|line rest IH]; intros st st' H; simpl in H.
  - injection H as <-. exists []. rewrite app_nil_r. simpl.
    repeat split; try reflexivity. lia.
  - destruct (parse_line line st) as [st1|] eqn:H1; [|discriminate].
    destruct (IH _ _ H) as (new & Hb & Hc & Hn & Hh).
    unfold hash_lines in *. simpl.
    destruct (parse_line_step _ _ _ H1) as [[Hm ->]|(Hm & Hb1 & Hc1)]; rewrite Hm.
    + simpl in *. eexists (_ :: new). rewrite Hb, <- app_assoc. simpl.
      split; [reflexivity|]. split; [lia|].
      rewrite seqZ_cons by lia. simpl. split.
      * f_equal. rewrite Hn. do 2 f_equal; lia.
      * f_equal. exact Hh.
    + exists new. rewrite Hb, Hb1, Hc, Hc1, Hn, Hc1. now repeat split.
Qed.

Lemma plain_line_ok (line : string) : plain_line line = true -> line_ok line = true.
Proof.
  unfold plain_line, line_ok. intros H.
  apply andb_true_iff in H as [-> _]. reflexivity.
Qed.

Lemma last_with_cons (prefix line : string) (rest : list string) (start : option string) :
  last_with prefix (line :: rest) start
  = last_with prefix rest
      (if Js.startsWith line prefix
       then Some (Js.substring_from (String.length prefix) line) else start).
Proof. reflexivity. Qed.

(** Lines of a block with no `author-time ` only set author and message. *)
Lemma parse_plain (lines : list string) :
  forall st,
    forallb plain_line lines = true ->
    parse_lines lines st =
    Normal (mkParseState (blame st)
              (mkBlameInfo (hash (currentBlame st))
                           (last_with "author " lines (author (currentBlame st)))
                           (date (currentBlame st))
                           (last_with "summary " lines (message (currentBlame st)))
                           (lineNumber (currentBlame st)))
              (lineCounter st)).
Proof.
  induction lines as [|line rest IH]; intros st H.
  - destruct st as [b [h a d m n] c]. reflexivity.
  - simpl in H. apply andb_true_iff in H as [Hl Hr].
    unfold plain_line in Hl. apply andb_true_iff in Hl as [Ht Hh].
    apply negb_true_iff in Ht, Hh.
    rewrite !last_with_cons. simpl parse_lines. unfold parse_line.
    rewrite Ht, Hh.
    destruct (Js.startsWith line "author ") eqn:Ha.
    + destruct (author_not_others _ Ha) as [_ ->]. now rewrite IH.
    + destruct (Js.startsWith line "summary ") eqn:Hs; now rewrite IH.
Qed.

Lemma last_with_cases (prefix : string) (lines : list string) :
  forall start,
    (existsb (fun l => Js.startsWith l prefix) lines = false
     /\ last_with prefix lines start = start)
    \/ (exists v, last_with prefix lines start = Some v
                  /\ In (String.append prefix v) lines).
Proof.
  induction lines as [|line rest IH]; intros start.
  - left. now split.
  - rewrite last_with_cons. simpl existsb.
    destruct (Js.startsWith line prefix) eqn:Hp.
    + right.
      destruct (IH (Some (Js.substring_from (String.length prefix) line)))
        as [[_ ->]|(v & -> & Hin)].
      * eexists. split; [reflexivity|]. left. now apply startsWith_inv.
      * exists v. split; [reflexivity|now right].
    + destruct (IH start) as [[Hn ->]|(v & -> & Hin)].
      * left. now split.
      * right. exists v. split; [reflexivity|now right].
Qed.

Lemma last_with_found (prefix : string) (lines : list string) (start : option string) :
  existsb (fun l => Js.startsWith l prefix) lines = true ->
  exists v, last_with prefix lines start = Some v /\ In (String.append prefix v) lines.
Proof.
  intros H. destruct (last_with_cases prefix lines start) as [[Hn _]|Hv].
  - congruence.
  - exact Hv.
Qed.

(** After lines that end in a hash line no block is open. *)
Lemma closed_before_empty (pre : list string) (st st1 : ParseState) :
  closed_before pre = true ->
  currentBlame st = emptyBlame ->
  parse_lines pre st = Normal st1 ->
  currentBlame st1 = emptyBlame.
Proof.
  unfold closed_before. intros Hc Hst H.
  destruct (rev pre) as [|l r] eqn:Hr.
  - apply (f_equal (@rev string)) in Hr. rewrite rev_involutive in Hr.
    subst pre. simpl in H. now injection H as <-.
  - apply (f_equal (@rev string)) in Hr. rewrite rev_involutive in Hr.
    subst pre. simpl in H. rewrite parse_lines_app in H.
    destruct (parse_lines (rev r) st) as [st0|]; [|discriminate].
    simpl in H. destruct (parse_line l st0) as [st2|] eqn:H2; [|discriminate].
    injection H as <-.
    destruct (parse_line_step _ _ _ H2) as [[_ ->]|[Hm _]]; [reflexivity|congruence].
Qed.

End ParserFacts.

Section ParserClaims.

Example alice_text_lines :
  Js.split Js.LF alice_text
  = [ "author Alice"%string; "author-time 1700000000"%string; "summary Fix bug"%string;
      String.append HASH_A " extra"; EmptyString ].
Proof. reflexivity. Qed.

(** C9.  The end-to-end example: the block of Alice parses to exactly one
    record with author "Alice", date "2023-11-14", message "Fix bug", the
    forty characters `a` as hash (the text after them dropped) and
    lineNumber 1. *)
Theorem alice_block_parses :
  parseBlameOutput alice_text =
  Normal [ mkBlameInfo (Some HASH_A) (Some "Alice"%string) (Some "2023-11-14"%string)
                       (Some "Fix bug"%string) (Some 1) ].
Proof. vm_compute. reflexivity. Qed.

(** C2, as stated, fails: a block whose `author-time ` line carries no
    number makes `toISOString` throw a RangeError out of the parser. *)
Lemma bad_time_throws :
  parseBlameOutput bad_time_text = Throw (ErrorObject "Invalid time value")
  /\ ~ (exists records, parseBlameOutput bad_time_text = Normal records).
Proof.
  assert (H : parseBlameOutput bad_time_text = Throw (ErrorObject "Invalid time value"))
    by (vm_compute; reflexivity).
  split; [exact H|]. intros [records Hr]. rewrite H in Hr. discriminate.
Qed.

(** C2, amended.  parseBlameOutput is total.  It returns a sequence of
    (possibly partial) records exactly when every `author-time ` line
    carries a timestamp that gives a valid Date; otherwise it throws the
    RangeError "Invalid time value" and nothing else. *)
Theorem parse_throws_only_on_invalid_time (output : string) :
  match parseBlameOutput output with
  | Normal _ => forallb line_ok (Js.split Js.LF output) = true
  | Throw e =>
      e = ErrorObject "Invalid time value"
      /\ forallb line_ok (Js.split Js.LF output) = false
  end.
Proof.
  unfold parseBlameOutput.
  destruct (forallb line_ok (Js.split Js.LF output)) eqn:H.
  - destruct (parse_lines_ok _ parse_init H) as [st ->]. reflexivity.
  - rewrite (parse_lines_bad _ parse_init H). now split.
Qed.

(** C1.  For blame text whose `author-time ` lines are valid, with N lines
    that begin with a 40-character hash, the parser returns exactly N
    records; their lineNumbers are 1..N in order, counted per hash line
    whatever the text says elsewhere, and the k-th record carries the
    hash of the k-th hash line. *)
Theorem records_numbered_by_hash_lines (output : string) :
  forallb line_ok (Js.split Js.LF output) = true ->
  exists records,
    parseBlameOutput output = Normal records
    /\ length records = length (hash_lines (Js.split Js.LF output))
    /\ map lineNumber records
       = map Some (seqZ 1 (Z.of_nat (length (hash_lines (Js.split Js.LF output)))))
    /\ map hash records
       = map (fun l => Some (Js.substring_to 40 l)) (hash_lines (Js.split Js.LF output)).
Proof.
  intros Hok. unfold parseBlameOutput.
  destruct (parse_lines_ok _ parse_init Hok) as [st Hst]. rewrite Hst.
  destruct (parse_lines_records _ _ _ Hst) as (new & Hb & _ & Hn & Hh).
  simpl in Hb, Hn. subst new. exists (blame st).
  split; [reflexivity|]. split; [|now split].
  rewrite <- (length_map lineNumber), Hn, length_map, length_seqZ. lia.
Qed.

Lemma records_numbered_by_hash_lines_witness :
  exists records,
    parseBlameOutput alice_text = Normal records
    /\ length records = length (hash_lines (Js.split Js.LF alice_text))
    /\ map lineNumber records
       = map Some (seqZ 1 (Z.of_nat (length (hash_lines (Js.split Js.LF alice_text)))))
    /\ map hash records
       = map (fun l => Some (Js.substring_to 40 l))
             (hash_lines (Js.split Js.LF alice_text)).
Proof. apply (records_numbered_by_hash_lines alice_text). reflexivity. Defined.

(** C3.  A block with an `author ` line and a `summary ` line, closed by a
    hash line, and with no `author-time ` line: the parse returns, and
    the record of that block has no date while its author, message, hash
    and lineNumber are set as usual.  The block may stand anywhere in
    the text, after [pre] and before [post]. *)
Theorem block_without_author_time
    (output : string) (pre body post : list string) (hashline : string) :
  Js.split Js.LF output = pre ++ body ++ hashline :: post ->
  forallb line_ok (pre ++ post) = true ->
  closed_before pre = true ->
  forallb plain_line body = true ->
  existsb (fun l => Js.startsWith l "author ") body = true ->
  existsb (fun l => Js.startsWith l "summary ") body = true ->
  Js.match_hash40 hashline = true ->
  exists records a m,
    parseBlameOutput output = Normal records
    /\ In (String.append "author " a) body
    /\ In (String.append "summary " m) body
    /\ records !! length (hash_lines pre)
       = Some (mkBlameInfo (Some (Js.substring_to 40 hashline)) (Some a) None (Some m)
                           (Some (Z.of_nat (length (hash_lines pre)) + 1))).
Proof.
  intros Hsplit Hok Hclosed Hplain Hauthor Hsummary Hhash.
  rewrite forallb_app in Hok. apply andb_true_iff in Hok as [Hpre Hpost].
  unfold parseBlameOutput. rewrite Hsplit.
  rewrite parse_lines_app.
  destruct (parse_lines_ok pre parse_init Hpre) as [st1 H1]. rewrite H1.
  pose proof (closed_before_empty pre parse_init st1 Hclosed eq_refl H1) as Hcur.
  destruct (parse_lines_records _ _ _ H1) as (new1 & Hb1 & Hc1 & Hn1 & _).
  simpl in Hb1, Hc1, Hn1.
  assert (Hlen : length (blame st1) = length (hash_lines pre)).
  { rewrite Hb1, <- (length_map lineNumber), Hn1, length_map, length_seqZ. lia. }
  rewrite parse_lines_app, (parse_plain body st1 Hplain), Hcur. simpl.
  destruct (last_with_found "author " body None Hauthor) as (a & Ha & Hina).
  destruct (last_with_found "summary " body None Hsummary) as (m & Hm & Hinm).
  rewrite Ha, Hm.
  destruct (hash_line_unprefixed hashline Hhash) as (Hx & Hy & Hz).
  unfold parse_line at 1. rewrite Hx, Hy, Hz, Hhash. cbn [blame currentBlame lineCounter].
  match goal with |- context [parse_lines post ?s] => set (st2 := s) end.
  destruct (parse_lines_ok post st2 Hpost) as [st3 H3]. rewrite H3.
  destruct (parse_lines_records _ _ _ H3) as (new3 & Hb3 & _).
  exists (blame st3), a, m.
  split; [reflexivity|]. split; [exact Hina|]. split; [exact Hinm|].
  rewrite Hb3. unfold st2. cbn [blame].
  rewrite <- app_assoc, lookup_app_r by lia.
  rewrite Hlen, Nat.sub_diag. simpl. rewrite Hc1.
  reflexivity.
Qed.

Lemma block_without_author_time_witness :
  exists records a m,
    parseBlameOutput no_time_text = Normal records
    /\ In (String.append "author " a) ["author Alice"%string; "summary Fix bug"%string]
    /\ In (String.append "summary " m) ["author Alice"%string; "summary Fix bug"%string]
    /\ records !! length (hash_lines [])
       = Some (mkBlameInfo
                 (Some (Js.substring_to 40 (String.append HASH_A " 1 1 1")))
                 (Some a) None (Some m)
                 (Some (Z.of_nat (length (hash_lines [])) + 1))).
Proof.
  apply (block_without_author_time no_time_text []
           ["author Alice"%string; "summary Fix bug"%string] [EmptyString]
           (String.append HASH_A " 1 1 1")); reflexivity.
Defined.

End ParserClaims.

(* ===================================================================== *)
(* The provider                                                          *)
(* ===================================================================== *)

Ltac unfold_monad :=
  unfold bind, ret, throw, lift, try_catch, emit, get_enabled, set_enabled,
    cache_has, cache_get, cache_set, set_status_text, set_status_tooltip,
    setDecorations in *.

Section ReconcilerGuards.

(** C5, as stated, fails.  With the blame turned off while editor a still
    shows its annotation, the next reconcile of editor a returns at the
    guard: the annotation stays and no decoration call is made. *)
Lemma disabled_update_keeps_decorations :
  enabled off_beside_a = false
  /\ decorations off_beside_a !! 1%nat = Some [mkDecoration 0 alice_record]
  /\ updateDecorations env_a (Some editor_a) off_beside_a = (Normal tt, off_beside_a)
  /\ decorations (snd (updateDecorations env_a (Some editor_a) off_beside_a)) !! 1%nat
     <> Some [].
Proof.
  assert (He : enabled off_beside_a = false) by (vm_compute; reflexivity).
  assert (Hd : decorations off_beside_a !! 1%nat = Some [mkDecoration 0 alice_record])
    by (vm_compute; reflexivity).
  assert (Hu : updateDecorations env_a (Some editor_a) off_beside_a
               = (Normal tt, off_beside_a)).
  { unfold updateDecorations, bind, get_enabled. rewrite He. reflexivity. }
  repeat split; try assumption.
  rewrite Hu. simpl. rewrite Hd. discriminate.
Qed.

Lemma update_guard (env : Env) (editor : option Editor) (p : Provider) :
  enabled p = false \/ editor = None ->
  updateDecorations env editor p = (Normal tt, p).
Proof.
  intros H. unfold updateDecorations, bind, get_enabled.
  destruct editor as [ed|]; [|reflexivity].
  destruct H as [->|H]; [reflexivity|discriminate].
Qed.

(** C5, amended.  Invoked with the toggle off, or without an editor,
    updateDecorations returns at once and leaves everything as it was:
    no decoration is cleared and no call is made.  (Turning the blame
    off clears the active editor in toggle itself.) *)
Theorem update_returns_at_guard (env : Env) (editor : option Editor) (p : Provider) :
  enabled p = false \/ editor = None ->
  updateDecorations env editor p = (Normal tt, p)
  /\ decorations (snd (updateDecorations env editor p)) = decorations p
  /\ trace (snd (updateDecorations env editor p)) = trace p.
Proof. intros H. rewrite (update_guard env editor p H). now repeat split. Qed.

Lemma update_returns_at_guard_witness :
  updateDecorations env_a (Some editor_a) off_beside_a = (Normal tt, off_beside_a)
  /\ decorations (snd (updateDecorations env_a (Some editor_a) off_beside_a))
     = decorations off_beside_a
  /\ trace (snd (updateDecorations env_a (Some editor_a) off_beside_a))
     = trace off_beside_a.
Proof.
  apply (update_returns_at_guard env_a (Some editor_a) off_beside_a).
  left. vm_compute. reflexivity.
Defined.

End ReconcilerGuards.

(* ---- the error marker and the "not a repository" notice -------------- *)

Section MarkerFacts.

Lemma follows_refl (p : Provider) : follows p p.
Proof. unfold follows. repeat split; auto; lia. Qed.

Lemma follows_trans (p q r : Provider) : follows p q -> follows q r -> follows p r.
Proof.
  unfold follows. intros (A1 & A2 & A3) (B1 & B2 & B3). repeat split.
  - destruct (A1 H) as [Hq _]. now destruct (B1 Hq).
  - destruct (A1 H) as [Hq E1]. destruct (B1 Hq) as [_ E2]. lia.
  - lia.
  - destruct (Nat.eq_dec (not_repo_notices q) (S (not_repo_notices p))) as [E|E].
    + destruct (B1 (A3 E)) as [_ E2]. lia.
    + lia.
  - intros E.
    destruct (Nat.eq_dec (not_repo_notices q) (S (not_repo_notices p))) as [Eq|Eq].
    + now destruct (B1 (A3 Eq)).
    + apply B3. lia.
Qed.

(** A step that keeps the marker and adds no notice. *)
Lemma follows_quiet (p p' : Provider) :
  (has_error_marker p -> has_error_marker p') ->
  not_repo_notices p' = not_repo_notices p ->
  follows p p'.
Proof. unfold follows. intros Hm Hn. repeat split; auto; lia. Qed.

Lemma notices_traced (es : list Effect) (p : Provider) :
  not_repo_notices (traced es p)
  = (not_repo_notices p + length (List.filter is_not_repo_notice es))%nat.
Proof.
  unfold not_repo_notices, traced. simpl.
  now rewrite List.filter_app, length_app.
Qed.

Lemma marker_insert (key : string) (v : list BlameInfo) (m : gmap string (list BlameInfo)) :
  is_Some (m !! "error_shown"%string) ->
  is_Some (<[key := v]> m !! "error_shown"%string).
Proof.
  intros H. destruct (decide (key = "error_shown"%string)) as [->|Hne].
  - rewrite lookup_insert_eq. eauto.
  - now rewrite lookup_insert_ne.
Qed.

Lemma steady_ret {A} (a : A) : steady (ret a).
Proof. intros p. apply follows_refl. Qed.

Lemma steady_throw {A} (e : Exn) : steady (@throw A e).
Proof. intros p. apply follows_refl. Qed.

Lemma steady_lift {A} (c : Completion A) : steady (lift c).
Proof. intros p. apply follows_refl. Qed.

Lemma steady_bind {A B} (c : M A) (k : A -> M B) :
  steady c -> (forall a, steady (k a)) -> steady (bind c k).
Proof.
  intros Hc Hk p. unfold bind. specialize (Hc p).
  destruct (c p) as [[a|e] p1]; simpl in *.
  - eapply follows_trans; [exact Hc|apply Hk].
  - exact Hc.
Qed.

Lemma steady_try_catch {A} (body : M A) (handler : Exn -> M A) :
  steady body -> (forall e, steady (handler e)) -> steady (try_catch body handler).
Proof.
  intros Hb Hh p. unfold try_catch. specialize (Hb p).
  destruct (body p) as [[a|e] p1]; simpl in *.
  - exact Hb.
  - eapply follows_trans; [exact Hb|apply Hh].
Qed.

Lemma steady_emit (e : Effect) : is_not_repo_notice e = false -> steady (emit e).
Proof.
  intros He p. apply follows_quiet; [auto|].
  change (snd (emit e p)) with (traced [e] p).
  rewrite notices_traced. simpl. rewrite He. simpl. lia.
Qed.

Lemma steady_get_enabled : steady get_enabled.
Proof. intros p. apply follows_refl. Qed.

Lemma steady_set_enabled (b : bool) : steady (set_enabled b).
Proof. intros p. now apply follows_quiet. Qed.

Lemma steady_cache_has (key : string) : steady (cache_has key).
Proof. intros p. apply follows_refl. Qed.

Lemma steady_cache_get (key : string) : steady (cache_get key).
Proof. intros p. apply follows_refl. Qed.

Lemma steady_cache_set (key : string) (v : list BlameInfo) : steady (cache_set key v).
Proof.
  intros p. apply follows_quiet; [|reflexivity].
  unfold has_error_marker. simpl. apply marker_insert.
Qed.

Lemma steady_set_status_text (s : string) :
  String.eqb s NOT_A_REPO_TEXT = false -> steady (set_status_text s).
Proof.
  intros Hs p. apply follows_quiet; [auto|].
  unfold not_repo_notices. simpl.
  rewrite List.filter_app, length_app. simpl. rewrite Hs. simpl. lia.
Qed.

Lemma steady_set_status_tooltip (s : string) : steady (set_status_tooltip s).
Proof.
  intros p. apply follows_quiet; [auto|].
  unfold not_repo_notices. simpl.
  rewrite List.filter_app, length_app. simpl. lia.
Qed.

Lemma steady_setDecorations (editor : nat) (ds : list Decoration) :
  steady (setDecorations editor ds).
Proof.
  intros p. apply follows_quiet; [auto|].
  unfold not_repo_notices. simpl.
  rewrite List.filter_app, length_app. simpl. lia.
Qed.

(** showError is the one place a notice is written, and it writes it
    only while the marker is missing, setting the marker with it. *)
Lemma steady_showError (message : string) : steady (showError message).
Proof.
  intros p. unfold showError. unfold_monad. simpl.
  destruct (String.eqb message "Not a git repository") eqn:Hm; simpl.
  - destruct (bool_decide (is_Some (cache p !! "error_shown"%string))) eqn:Hs; simpl.
    + apply follows_refl.
    + apply bool_decide_eq_false in Hs.
      apply String.eqb_eq in Hm. subst message. simpl.
      unfold follows, has_error_marker, not_repo_notices. simpl.
      rewrite !List.filter_app, !length_app. simpl.
      rewrite lookup_insert_eq. repeat split; eauto; try lia. contradiction.
  - destruct (Js.includes message "is outside repository"); simpl.
    + apply follows_refl.
    + assert (Hq : forall es,
                 List.filter is_not_repo_notice es = [] ->
                 follows p (mkProvider (enabled p)
                              (<["error_shown"%string := []]> (cache p))
                              (statusBarText p) (statusBarTooltip p) (decorations p)
                              (trace p ++ es))).
      { intros es Hes. apply follows_quiet.
        - intros _. unfold has_error_marker. simpl. rewrite lookup_insert_eq. eauto.
        - unfold not_repo_notices. simpl.
          rewrite List.filter_app, length_app, Hes. simpl. lia. }
      destruct (String.eqb message "Git is not installed"); simpl.
      * now apply Hq.
      * destruct (String.eqb message "File does not exist"); simpl.
        -- specialize (Hq [] eq_refl). now rewrite app_nil_r in Hq.
        -- now apply Hq.
Qed.

End MarkerFacts.

Create HintDb steady.

#[local] Hint Resolve steady_ret steady_throw steady_lift steady_get_enabled
  steady_set_enabled steady_cache_has steady_cache_get steady_cache_set
  steady_set_status_tooltip steady_setDecorations steady_showError : steady.

Ltac steady_step :=
  first
    [ solve [auto with steady]
    | apply steady_emit; reflexivity
    | apply steady_set_status_text; reflexivity
    | apply steady_try_catch; [|intros ?]
    | apply steady_bind; [|intros ?]
    | match goal with
      | |- steady (if ?b then _ else _) => destruct b
      | |- steady (match ?x with _ => _ end) => destruct x
      end ].

Section Lifetime.

Lemma steady_getGitBlame (env : Env) (filePath : string) :
  steady (getGitBlame env filePath).
Proof.
  unfold getGitBlame, fileExists, isGitInstalled, isGitRepository, access, execAsync.
  repeat steady_step.
Qed.

Lemma steady_clear (env : Env) : steady (clear env).
Proof. unfold clear. repeat steady_step. Qed.

Lemma steady_updateDecorations (env : Env) (editor : option Editor) :
  steady (updateDecorations env editor).
Proof.
  pose proof (steady_getGitBlame env) as Hg.
  pose proof (steady_clear env) as Hc.
  unfold updateDecorations. repeat steady_step; auto.
Qed.

Lemma steady_toggle (env : Env) : steady (toggle env).
Proof.
  pose proof (steady_updateDecorations env) as Hu.
  pose proof (steady_clear env) as Hc.
  unfold toggle. apply steady_bind; [auto with steady|].
  intros on. destruct on; simpl; repeat steady_step; auto.
Qed.

Lemma follows_step (p : Provider) (ev : Event) : follows p (step p ev).
Proof.
  destruct ev as [env editor|env]; simpl.
  - apply steady_updateDecorations.
  - apply steady_toggle.
Qed.

Lemma follows_run (evs : list Event) : forall p, follows p (run evs p).
Proof.
  induction evs as [|ev evs IH]; intros p; simpl.
  - apply follows_refl.
  - eapply follows_trans; [apply follows_step|apply IH].
Qed.

(** C7.  Over any sequence of reconciles and toggles of one process,
    whatever the file system and git answer each time, the status text
    "Not a Git Repository" is written at most once: showError writes it
    only while the cache lacks the key `error_shown`, and sets that key
    in the same call. *)
Theorem not_repo_notice_at_most_once (evs : list Event) :
  (not_repo_notices (run evs new_provider) <= 1)%nat.
Proof.
  destruct (follows_run evs new_provider) as (_ & H & _).
  change (not_repo_notices new_provider) with 0%nat in H. lia.
Qed.

(** C10.  An error whose message does not contain "is outside
    repository" leaves the key `error_shown` in the cache, whatever its
    kind; `File does not exist` does so without any visible call.  From
    then on no run of the process writes the "Not a Git Repository"
    status text again. *)
Theorem any_error_sets_marker (message : string) (p : Provider) :
  Js.includes message "is outside repository" = false ->
  has_error_marker (snd (showError message p))
  /\ (message = "File does not exist"%string -> trace (snd (showError message p)) = trace p)
  /\ forall evs,
       not_repo_notices (run evs (snd (showError message p)))
       = not_repo_notices (snd (showError message p)).
Proof.
  intros Hout.
  assert (Hmark : has_error_marker (snd (showError message p))).
  { unfold showError. unfold_monad. simpl. rewrite Hout.
    unfold has_error_marker.
    destruct (String.eqb message "Not a git repository") eqn:Hm; simpl.
    - destruct (bool_decide (is_Some (cache p !! "error_shown"%string))) eqn:Hs; simpl.
      + now apply bool_decide_eq_true in Hs.
      + apply String.eqb_eq in Hm. subst message. simpl.
        rewrite lookup_insert_eq. eauto.
    - destruct (String.eqb message "Git is not installed"); simpl;
        [|destruct (String.eqb message "File does not exist"); simpl];
        rewrite lookup_insert_eq; eauto. }
  split; [exact Hmark|]. split.
  - intros ->. reflexivity.
  - intros evs.
    destruct (follows_run evs (snd (showError message p))) as (H & _).
    now destruct (H Hmark).
Qed.

Lemma any_error_sets_marker_witness :
  has_error_marker (snd (showError "File does not exist" new_provider))
  /\ ("File does not exist"%string = "File does not exist"%string ->
      trace (snd (showError "File does not exist" new_provider)) = trace new_provider)
  /\ forall evs,
       not_repo_notices (run evs (snd (showError "File does not exist" new_provider)))
       = not_repo_notices (snd (showError "File does not exist" new_provider)).
Proof. apply (any_error_sets_marker "File does not exist" new_provider). reflexivity. Defined.

End Lifetime.

(* ---- the fetch path -------------------------------------------------- *)

Section Fetch.

Lemma traced_traced (es1 es2 : list Effect) (p : Provider) :
  traced es2 (traced es1 p) = traced (es1 ++ es2) p.
Proof. unfold traced. simpl. now rewrite app_assoc. Qed.

Lemma fileExists_eq (env : Env) (filePath : string) (p : Provider) :
  fileExists env filePath p = (Normal (fs_access env filePath), traced [FsAccess filePath] p).
Proof.
  unfold fileExists, access. unfold_monad.
  destruct (fs_access env filePath); reflexivity.
Qed.

Lemma isGitInstalled_eq (env : Env) (p : Provider) :
  isGitInstalled env p =
  (Normal (match exec env "git --version" None with
           | Normal _ => true
           | Throw _ => false
           end),
   traced [version_call] p).
Proof.
  unfold isGitInstalled, execAsync. unfold_monad. simpl.
  destruct (exec env "git --version" None); reflexivity.
Qed.

Lemma isGitRepository_eq (env : Env) (filePath : string) (p : Provider) :
  isGitRepository env filePath p =
  (Normal (match exec env "git rev-parse --git-dir" (Some (path_dirname env filePath)) with
           | Normal out => negb (String.eqb out EmptyString)
           | Throw _ => false
           end),
   traced [repo_call env filePath] p).
Proof.
  unfold isGitRepository, execAsync. unfold_monad. simpl.
  destruct (exec env "git rev-parse --git-dir" _); reflexivity.
Qed.

Lemma execAsync_eq (env : Env) (command : string) (cwd : option string) (p : Provider) :
  execAsync env command cwd p = (exec env command cwd, traced [Exec command cwd] p).
Proof. reflexivity. Qed.

Lemma showError_returns (message : string) (p : Provider) :
  fst (showError message p) = Normal tt.
Proof.
  unfold showError. unfold_monad. simpl.
  destruct (_ && _); [reflexivity|].
  destruct (Js.includes _ _); [reflexivity|]. simpl.
  repeat (destruct (String.eqb message _); try reflexivity).
Qed.

(** showError reaches neither the file system nor a subprocess. *)
Lemma showError_no_outside_call (message : string) (p : Provider) :
  List.filter is_outside_call (trace (snd (showError message p)))
  = List.filter is_outside_call (trace p).
Proof.
  unfold showError. unfold_monad. simpl.
  destruct (_ && _); [reflexivity|].
  destruct (Js.includes _ _); [reflexivity|]. simpl.
  repeat (destruct (String.eqb message _); simpl;
          rewrite ?List.filter_app, ?app_nil_r; try reflexivity).
Qed.

Lemma fetch_calls_outside (env : Env) (filePath : string) (o : FetchOutcome) :
  List.filter is_outside_call (fetch_calls env filePath o) = fetch_calls env filePath o.
Proof. destruct o; reflexivity. Qed.

(** C6.  getGitBlame asks, in this order, whether the path is on disk,
    whether git answers `--version`, and whether the path lies in a
    repository.  The first check that fails ends the fetch with its own
    message: the calls made are exactly those up to that check, and no
    later check and no blame query runs.  Whatever fails, a check, the
    blame query or the parser, is caught and handed to showError, and
    the fetch returns the empty sequence: getGitBlame never throws. *)
Theorem fetch_checks_in_order (env : Env) (filePath : string) (p : Provider) :
  getGitBlame env filePath p =
    (Normal (fetch_result (fetch_outcome env filePath)),
     match classified_message (fetch_outcome env filePath) with
     | Some msg =>
         snd (showError msg
                (traced (fetch_calls env filePath (fetch_outcome env filePath)) p))
     | None => traced (fetch_calls env filePath (fetch_outcome env filePath)) p
     end)
  /\ List.filter is_outside_call (trace (snd (getGitBlame env filePath p)))
     = List.filter is_outside_call (trace p)
       ++ fetch_calls env filePath (fetch_outcome env filePath).
Proof.
  assert (Heq : getGitBlame env filePath p =
    (Normal (fetch_result (fetch_outcome env filePath)),
     match classified_message (fetch_outcome env filePath) with
     | Some msg =>
         snd (showError msg
                (traced (fetch_calls env filePath (fetch_outcome env filePath)) p))
     | None => traced (fetch_calls env filePath (fetch_outcome env filePath)) p
     end)).
  { unfold getGitBlame, fetch_outcome, try_catch, bind at 1.
    rewrite fileExists_eq.
    destruct (fs_access env filePath); cbn [negb];
      [|unfold throw, bind, ret; cbn [error_message];
        rewrite (surjective_pairing (showError _ _)), showError_returns; reflexivity].
    unfold bind at 1. rewrite isGitInstalled_eq, traced_traced.
    destruct (exec env "git --version" None) as [v|e0]; cbn [negb];
      [|unfold throw, bind, ret; cbn [error_message];
        rewrite (surjective_pairing (showError _ _)), showError_returns; reflexivity].
    unfold bind at 1. rewrite isGitRepository_eq, traced_traced.
    destruct (exec env "git rev-parse --git-dir" _) as [out|e1]; cbn [negb];
      [|unfold throw, bind, ret; cbn [error_message];
        rewrite (surjective_pairing (showError _ _)), showError_returns; reflexivity].
    destruct (String.eqb out EmptyString); cbn [negb];
      [unfold throw, bind, ret; cbn [error_message];
        rewrite (surjective_pairing (showError _ _)), showError_returns; reflexivity|].
    unfold bind at 1. rewrite execAsync_eq, traced_traced.
    destruct (exec env (blame_command filePath) _) as [stdout|e2];
      [|unfold throw, bind, ret;
        rewrite (surjective_pairing (showError _ _)), showError_returns; reflexivity].
    unfold lift.
    destruct (parseBlameOutput stdout) as [records|e3];
      [reflexivity|].
    unfold throw, bind, ret.
    rewrite (surjective_pairing (showError _ _)), showError_returns; reflexivity. }
  split; [exact Heq|].
  rewrite Heq. cbn [snd].
  destruct (classified_message (fetch_outcome env filePath)).
  - rewrite showError_no_outside_call. unfold traced. cbn [trace].
    now rewrite List.filter_app, fetch_calls_outside.
  - unfold traced. cbn [trace].
    now rewrite List.filter_app, fetch_calls_outside.
Qed.

End Fetch.

(* ---- the reconciler --------------------------------------------------- *)

Section Reconciler.

Lemma clear_returns (env : Env) (p : Provider) : fst (clear env p) = Normal tt.
Proof. unfold clear. destruct (activeTextEditor env); reflexivity. Qed.

Lemma clear_no_outside_call (env : Env) (p : Provider) :
  List.filter is_outside_call (trace (snd (clear env p)))
  = List.filter is_outside_call (trace p).
Proof.
  unfold clear. destruct (activeTextEditor env); [|reflexivity].
  unfold setDecorations. simpl. rewrite List.filter_app. simpl. apply app_nil_r.
Qed.

Lemma clear_cache (env : Env) (p : Provider) : cache (snd (clear env p)) = cache p.
Proof. unfold clear. destruct (activeTextEditor env); reflexivity. Qed.

(** C8.  A reconcile of an untitled document, or of one whose scheme is
    not `file`, does at most the clearing of the active editor and
    returns: no availability check and no blame query runs, so no
    subprocess is started and the file system is not asked. *)
Theorem unsaved_document_no_subprocess (env : Env) (ed : Editor) (p : Provider) :
  isUntitled ed = true \/ scheme ed <> "file"%string ->
  (updateDecorations env (Some ed) p = (Normal tt, p)
   \/ updateDecorations env (Some ed) p = (Normal tt, snd (clear env p)))
  /\ List.filter is_outside_call (trace (snd (updateDecorations env (Some ed) p)))
     = List.filter is_outside_call (trace p).
Proof.
  intros Hdoc.
  assert (Hskip : isUntitled ed || negb (String.eqb (scheme ed) "file") = true).
  { destruct Hdoc as [->|Hs]; [reflexivity|].
    apply orb_true_iff. right. apply negb_true_iff.
    now apply String.eqb_neq. }
  assert (Hcases : updateDecorations env (Some ed) p = (Normal tt, p)
                   \/ updateDecorations env (Some ed) p = (Normal tt, snd (clear env p))).
  { destruct (enabled p) eqn:Hon.
    - right. unfold updateDecorations, bind at 1, get_enabled. cbv beta iota.
      rewrite Hon. cbn [negb]. unfold bind at 1.
      destruct (clear env p) as [c p1] eqn:Hclear.
      pose proof (clear_returns env p) as Hc. rewrite Hclear in Hc. cbn [fst] in Hc.
      subst c. cbn [snd].
      destruct (selections ed); [reflexivity|].
      destruct (_ =? _)%nat; [reflexivity|].
      rewrite Hskip. reflexivity.
    - left. apply update_guard. now left. }
  split; [exact Hcases|].
  destruct Hcases as [->| ->]; cbn [snd]; [reflexivity|apply clear_no_outside_call].
Qed.

Lemma unsaved_document_no_subprocess_witness :
  (updateDecorations env_a (Some editor_untitled) new_provider = (Normal tt, new_provider)
   \/ updateDecorations env_a (Some editor_untitled) new_provider
      = (Normal tt, snd (clear env_a new_provider)))
  /\ List.filter is_outside_call
       (trace (snd (updateDecorations env_a (Some editor_untitled) new_provider)))
     = List.filter is_outside_call (trace new_provider).
Proof.
  apply (unsaved_document_no_subprocess env_a editor_untitled new_provider).
  left. reflexivity.
Defined.

(* ---- the filter ---------------------------------------------------- *)

Lemma filter_selected_In (selected : gset Z) (blame : list BlameInfo) (info : BlameInfo) :
  In info (filter_selected selected blame)
  <-> In info blame /\ exists n, lineNumber info = Some n /\ n - 1 ∈ selected.
Proof.
  unfold filter_selected. rewrite List.filter_In. unfold is_selected.
  split.
  - intros [Hin Hsel]. split; [exact Hin|].
    destruct (lineNumber info) as [n|]; [|discriminate].
    exists n. split; [reflexivity|]. now apply bool_decide_eq_true in Hsel.
  - intros [Hin (n & -> & Hn)]. split; [exact Hin|]. now apply bool_decide_eq_true.
Qed.

Lemma filter_selected_numbers (selected : gset Z) (blame : list BlameInfo) :
  forall ns,
    map lineNumber blame = map Some ns ->
    map lineNumber (filter_selected selected blame)
    = map Some (List.filter (fun n => bool_decide (n - 1 ∈ selected)) ns).
Proof.
  induction blame as [|info rest IH]; intros [|n ns] H; simpl in H; try discriminate.
  - reflexivity.
  - injection H as Hn Hrest. simpl. unfold is_selected at 1. rewrite Hn.
    destruct (bool_decide (n - 1 ∈ selected)); simpl.
    + rewrite Hn. f_equal. now apply IH.
    + now apply IH.
Qed.

Lemma map_decorations_ok (ed : Editor) (infos : list BlameInfo) :
  (forall info, In info infos ->
     exists n, lineNumber info = Some n /\ 0 <= n - 1 < lineCount ed) ->
  exists ds,
    map_decorations ed infos = Normal ds
    /\ map rendered ds = infos
    /\ Forall (fun d => lineNumber (rendered d) = Some (range_line d + 1)) ds.
Proof.
  induction infos as [|info rest IH]; intros H.
  - exists []. repeat split. constructor.
  - destruct (H info (or_introl eq_refl)) as (n & Hn & Hr).
    destruct IH as (ds & Hds & Hm & Hf); [intros i Hi; apply H; now right|].
    exists (mkDecoration (n - 1) info :: ds).
    simpl. unfold decoration_of, lineAt. rewrite Hn, Hds.
    replace ((0 <=? n - 1) && (n - 1 <? lineCount ed)) with true
      by (symmetry; apply andb_true_iff; split; [apply Z.leb_le|apply Z.ltb_lt]; lia).
    split; [reflexivity|]. split; [simpl; now f_equal|].
    constructor; [simpl; rewrite Hn; f_equal; lia|exact Hf].
Qed.

(** With the blame on, a saved file and its records in the cache, the
    decorations handed to the editor render the filtered records. *)
Lemma update_applies_filter (env : Env) (ed : Editor) (p : Provider)
    (records : list BlameInfo) :
  enabled p = true ->
  isUntitled ed = false ->
  scheme ed = "file"%string ->
  selectedLines (selections ed) <> ∅ ->
  (forall line, line ∈ selectedLines (selections ed) -> 0 <= line < lineCount ed) ->
  cache p !! fsPath ed = Some records ->
  exists ds,
    decorations (snd (updateDecorations env (Some ed) p)) !! editor_id ed = Some ds
    /\ map rendered ds = filter_selected (selectedLines (selections ed)) records
    /\ Forall (fun d => lineNumber (rendered d) = Some (range_line d + 1)) ds.
Proof.
  intros Hon Hsaved Hscheme Hne Hdoc Hcache.
  destruct (map_decorations_ok ed
              (filter_selected (selectedLines (selections ed)) records))
    as (ds & Hds & Hm & Hf).
  { intros info Hin. apply filter_selected_In in Hin as [_ (n & Hn & Hsel)].
    exists n. split; [exact Hn|]. now apply Hdoc. }
  exists ds. split; [|now split].
  unfold updateDecorations, bind at 1, get_enabled. cbv beta iota.
  rewrite Hon. cbn [negb].
  unfold bind at 1.
  pose proof (clear_cache env p) as Hcc.
  destruct (clear env p) as [c p1] eqn:Hclear.
  pose proof (clear_returns env p) as Hc. rewrite Hclear in Hc. cbn [fst] in Hc.
  subst c. cbn [snd] in Hcc.
  destruct (selections ed) as [|s ss] eqn:Hsels.
  { exfalso. apply Hne. reflexivity. }
  rewrite <- Hsels in *.
  destruct (Nat.eqb_spec (size (selectedLines (selections ed))) 0) as [Hz|_].
  { exfalso. apply Hne. now apply size_empty_inv in Hz; apply leibniz_equiv. }
  rewrite Hsaved, Hscheme.
  change (false || negb (String.eqb "file" "file")) with false. cbv iota.
  unfold bind at 1, cache_get. cbv beta iota. rewrite Hcc, Hcache.
  unfold bind at 1, ret. unfold bind at 1, lift. rewrite Hds.
  unfold bind at 1, setDecorations.
  destruct (0 <? length records)%nat; unfold_monad; simpl; apply lookup_insert_eq.
Qed.

(** C4.  The filter keeps exactly the records whose lineNumber minus one
    is a selected line.  For a selection covering the lines 2, 3 and 5
    and ten records numbered 1..10 it keeps the records numbered 3, 4
    and 6 and no others.  The decorations a reconcile hands to the editor
    render these filtered records, one per record, each on the line of
    its record. *)
Theorem filter_keeps_selected_lines :
  (forall (selected : gset Z) (blame : list BlameInfo) (info : BlameInfo),
      In info (filter_selected selected blame)
      <-> In info blame /\ exists n, lineNumber info = Some n /\ n - 1 ∈ selected)
  /\ (forall (sels : list (Z * Z)) (blame : list BlameInfo),
        selectedLines sels = {[2; 3; 5]} ->
        map lineNumber blame = map Some (seqZ 1 10) ->
        map lineNumber (filter_selected (selectedLines sels) blame)
        = [Some 3; Some 4; Some 6])
  /\ (forall (env : Env) (ed : Editor) (p : Provider) (records : list BlameInfo),
        enabled p = true ->
        isUntitled ed = false ->
        scheme ed = "file"%string ->
        selectedLines (selections ed) <> ∅ ->
        (forall line, line ∈ selectedLines (selections ed) -> 0 <= line < lineCount ed) ->
        cache p !! fsPath ed = Some records ->
        exists ds,
          decorations (snd (updateDecorations env (Some ed) p)) !! editor_id ed = Some ds
          /\ map rendered ds = filter_selected (selectedLines (selections ed)) records
          /\ Forall (fun d => lineNumber (rendered d) = Some (range_line d + 1)) ds).
Proof.
  split; [exact filter_selected_In|]. split; [|exact update_applies_filter].
  intros sels blame Hsel Hnum.
  rewrite (filter_selected_numbers _ _ _ Hnum), Hsel.
  vm_compute. reflexivity.
Qed.

Lemma filter_keeps_selected_lines_witness :
  map lineNumber (filter_selected (selectedLines [(2, 3); (5, 5)]) ten_records)
  = [Some 3; Some 4; Some 6]
  /\ exists ds,
       decorations (snd (updateDecorations env_a (Some editor_selecting) provider_cached))
         !! editor_id editor_selecting = Some ds
       /\ map rendered ds
          = filter_selected (selectedLines (selections editor_selecting)) ten_records
       /\ Forall (fun d => lineNumber (rendered d) = Some (range_line d + 1)) ds.
Proof.
  assert (Hsel : selectedLines [(2, 3); (5, 5)] = {[2; 3; 5]})
    by (vm_compute; reflexivity).
  split.
  - apply (proj1 (proj2 filter_keeps_selected_lines) [(2, 3); (5, 5)] ten_records).
    + exact Hsel.
    + reflexivity.
  - apply (proj2 (proj2 filter_keeps_selected_lines)
             env_a editor_selecting provider_cached ten_records).
    + reflexivity.
    + reflexivity.
    + reflexivity.
    + simpl. rewrite Hsel. intros H. apply (f_equal size) in H. vm_compute in H.
      discriminate.
    + simpl. rewrite Hsel. intros line H. set_unfold. lia.
    + vm_compute. reflexivity.
Defined.

End Reconciler.

(* ===================================================================== *)
(* Further properties of the parser                                      *)
(* ===================================================================== *)

Section ParserBlocks.

Lemma last_with_snoc (prefix line : string) (lines : list string) (start : option string) :
  last_with prefix (lines ++ [line]) start
  = if Js.startsWith line prefix
    then Some (Js.substring_from (String.length prefix) line)
    else last_with prefix lines start.
Proof. unfold last_with. now rewrite fold_left_app. Qed.

Lemma last_date_snoc (line : string) (lines : list string) (start : option string) :
  last_date (lines ++ [line]) start
  = if Js.startsWith line "author-time " then
      match date_of_author_time (Js.substring_from 12 line) with
      | Normal d => Some d
      | Throw _ => last_date lines start
      end
    else last_date lines start.
Proof. unfold last_date. now rewrite fold_left_app. Qed.

(** One line that closes no block moves the partial record from the
    fields of the lines so far to the fields with that line added. *)
Lemma parse_line_pending (line : string) (pending : list string) (st : ParseState) :
  quiet_line line = true ->
  currentBlame st = block_fields (rev pending) ->
  parse_line line st
  = Normal (mkParseState (blame st) (block_fields (rev (line :: pending))) (lineCounter st)).
Proof.
  unfold quiet_line. intros Hq Hcur.
  apply andb_true_iff in Hq as [Hok Hh]. apply negb_true_iff in Hh.
  simpl rev. unfold block_fields.
  rewrite !last_with_snoc, last_date_snoc.
  unfold parse_line. rewrite Hh, Hcur.
  destruct (Js.startsWith line "author ") eqn:Ha.
  - destruct (author_not_others _ Ha) as [-> ->]. reflexivity.
  - destruct (Js.startsWith line "author-time ") eqn:Ht.
    + unfold line_ok in Hok. rewrite Ht in Hok. simpl in Hok.
      unfold valid_timestamp in Hok. unfold date_of_author_time in *.
      destruct (JsDate.time_of_seconds _); [|discriminate]. simpl.
      assert (Hs : Js.startsWith line "summary " = false).
      { destruct (Js.startsWith line "summary ") eqn:Hs; [|reflexivity].
        destruct (summary_not_author _ Hs). congruence. }
      rewrite Hs. reflexivity.
    + destruct (Js.startsWith line "summary "); [reflexivity|].
      destruct st as [b c n]. simpl in *. now subst c.
Qed.

Lemma parse_lines_blocks (lines : list string) :
  forall (pending : list string) (st : ParseState),
    forallb line_ok lines = true ->
    currentBlame st = block_fields (rev pending) ->
    exists st',
      parse_lines lines st = Normal st'
      /\ blame st' = blame st ++ number_blocks (lineCounter st + 1) (blocks_of lines pending).
Proof.
  induction lines as [|line rest IH]; intros pending st Hok Hcur; simpl.
  - exists st. split; [reflexivity|]. now rewrite app_nil_r.
  - simpl in Hok. apply andb_true_iff in Hok as [Hl Hr].
    destruct (Js.match_hash40 line) eqn:Hh.
    + destruct (hash_line_unprefixed line Hh) as (Ha & Ht & Hs).
      unfold parse_line. rewrite Ha, Ht, Hs, Hh.
      match goal with |- context [parse_lines rest ?s] => set (st1 := s) end.
      destruct (IH [] st1 Hr eq_refl) as (st' & Hp & Hb).
      exists st'. split; [exact Hp|]. rewrite Hb. unfold st1. cbn [blame lineCounter].
      rewrite <- app_assoc. simpl. unfold record_of_block. simpl. now rewrite Hcur.
    + rewrite (parse_line_pending line pending st); [|unfold quiet_line; now rewrite Hl, Hh|exact Hcur].
      match goal with |- context [parse_lines rest ?s] => set (st1 := s) end.
      destruct (IH (line :: pending) st1 Hr eq_refl) as (st' & Hp & Hb).
      exists st'. split; [exact Hp|exact Hb].
Qed.

(** X1.  The parser works block by block.  For text whose `author-time `
    lines are valid, the records are those of the blocks in order: the
    k-th record takes its hash from the k-th hash line and its author,
    date and message from the last such line between the previous hash
    line and this one, and from nowhere else.  Lines after the last hash
    line give no record. *)
Theorem parse_is_blockwise (output : string) :
  forallb line_ok (Js.split Js.LF output) = true ->
  parseBlameOutput output
  = Normal (number_blocks 1 (blocks_of (Js.split Js.LF output) [])).
Proof.
  intros Hok. unfold parseBlameOutput.
  destruct (parse_lines_blocks _ [] parse_init Hok eq_refl) as (st & -> & Hb).
  now rewrite Hb.
Qed.

Lemma parse_is_blockwise_witness :
  parseBlameOutput two_blocks_text
  = Normal (number_blocks 1 (blocks_of (Js.split Js.LF two_blocks_text) [])).
Proof. apply (parse_is_blockwise two_blocks_text). reflexivity. Defined.

(** The second block has no author and no date of its own and takes none
    from the first; the line of Carol after the last hash line is lost. *)
Example two_blocks_records :
  parseBlameOutput two_blocks_text
  = Normal [ mkBlameInfo (Some HASH_A) (Some "Alice"%string) (Some "2023-11-14"%string)
                         (Some "Fix bug"%string) (Some 1);
             mkBlameInfo (Some HASH_B) None None (Some "Second"%string) (Some 2) ].
Proof. vm_compute. reflexivity. Qed.

End ParserBlocks.

Section ParserShape.

Lemma split_nonempty (c : ascii) (s : string) : Js.split c s <> [].
Proof.
  induction s as [|a s IH]; simpl; [discriminate|].
  destruct (Ascii.eqb a c); [discriminate|].
  destruct (Js.split c s); [contradiction|discriminate].
Qed.

(** Splitting distributes over a separator. *)
Lemma split_app (c : ascii) (s1 s2 : string) :
  Js.split c (String.append s1 (String c s2)) = Js.split c s1 ++ Js.split c s2.
Proof.
  induction s1 as [|a s1 IH].
  - change (String.append EmptyString (String c s2)) with (String c s2).
    simpl. now rewrite Ascii.eqb_refl.
  - change (String.append (String a s1) (String c s2))
      with (String a (String.append s1 (String c s2))).
    simpl. rewrite IH.
    destruct (Ascii.eqb a c); [reflexivity|].
    pose proof (split_nonempty c s1) as Hne.
    destruct (Js.split c s1); [contradiction|reflexivity].
Qed.

(** X2.  Records come in the order of the text and later text never
    changes them: when the parse of a text followed by a line break and
    more text returns, the parse of the first part returns too, and its
    records are the front of the records of the whole. *)
Theorem records_extend_in_order (first more : string) (records : list BlameInfo) :
  parseBlameOutput (String.append first (String Js.LF more)) = Normal records ->
  exists front added,
    parseBlameOutput first = Normal front /\ records = front ++ added.
Proof.
  unfold parseBlameOutput. rewrite split_app, parse_lines_app.
  destruct (parse_lines (Js.split Js.LF first) parse_init) as [st1|e]; [|discriminate].
  destruct (parse_lines (Js.split Js.LF more) st1) as [st2|e] eqn:H2; [|discriminate].
  intros H. injection H as <-.
  destruct (parse_lines_records _ _ _ H2) as (added & Hb & _).
  exists (blame st1), added. now split.
Qed.

Lemma records_extend_in_order_witness :
  exists front added,
    parseBlameOutput alice_text = Normal front
    /\ [ mkBlameInfo (Some HASH_A) (Some "Alice"%string) (Some "2023-11-14"%string)
                     (Some "Fix bug"%string) (Some 1);
         mkBlameInfo (Some HASH_A) (Some "Alice"%string) (Some "2023-11-14"%string)
                     (Some "Fix bug"%string) (Some 2) ]
       = front ++ added.
Proof.
  apply (records_extend_in_order alice_text alice_text). vm_compute. reflexivity.
Defined.

(** X4.  Text after the last hash line is dropped: lines that close no
    block and do not throw, added after a line break, leave the result of
    the parse as it was, be it records or a throw. *)
Theorem unfinished_block_is_dropped (text tail : string) :
  forallb quiet_line (Js.split Js.LF tail) = true ->
  parseBlameOutput (String.append text (String Js.LF tail)) = parseBlameOutput text.
Proof.
  intros Hq. unfold parseBlameOutput. rewrite split_app, parse_lines_app.
  destruct (parse_lines (Js.split Js.LF text) parse_init) as [st1|e]; [|reflexivity].
  assert (Hok : forallb line_ok (Js.split Js.LF tail) = true).
  { rewrite forallb_forall in *. intros l Hl. specialize (Hq l Hl).
    unfold quiet_line in Hq. now apply andb_true_iff in Hq as [-> _]. }
  assert (Hnone : hash_lines (Js.split Js.LF tail) = []).
  { unfold hash_lines. induction (Js.split Js.LF tail) as [|l ls IH]; [reflexivity|].
    simpl in *. apply andb_true_iff in Hq as [Hl Hls].
    apply andb_true_iff in Hok as [_ Hokls].
    unfold quiet_line in Hl. apply andb_true_iff in Hl as [_ Hl].
    apply negb_true_iff in Hl. rewrite Hl. now apply IH. }
  destruct (parse_lines_ok _ st1 Hok) as [st2 H2]. rewrite H2.
  destruct (parse_lines_records _ _ _ H2) as (added & Hb & _ & Hn & _).
  rewrite Hnone in Hn. simpl in Hn. destruct added; [|discriminate].
  now rewrite Hb, app_nil_r.
Qed.

Lemma unfinished_block_is_dropped_witness :
  parseBlameOutput (String.append alice_text (String Js.LF "author Carol"))
  = parseBlameOutput alice_text.
Proof. apply (unfinished_block_is_dropped alice_text "author Carol"). reflexivity. Defined.

Lemma hash40_prefix (n : nat) :
  forall line,
    Js.leading_hex n line = true ->
    String.length (Js.substring_to n line) = n
    /\ Js.leading_hex n (Js.substring_to n line) = true.
Proof.
  induction n as [|n IH]; intros line H.
  - now split.
  - destruct line as [|c r]; [discriminate|].
    rewrite leading_hex_S in H. apply andb_true_iff in H as [Hc Hr].
    destruct (IH r Hr) as [Hlen Hhex].
    change (Js.substring_to (S n) (String c r)) with (String c (Js.substring_to n r)).
    rewrite leading_hex_S, Hc, Hhex. simpl. now rewrite Hlen.
Qed.

(** X3.  Every record the parser returns is closed: the record at index i
    has lineNumber i + 1 and a hash of exactly forty characters, all in
    0-9a-f, that is the front of a line of the text.  (Author, date and
    message may be missing; hash and lineNumber never are.) *)
Theorem records_carry_hash_and_number
    (output : string) (records : list BlameInfo) (i : nat) (r : BlameInfo) :
  parseBlameOutput output = Normal records ->
  records !! i = Some r ->
  lineNumber r = Some (Z.of_nat i + 1)
  /\ exists h line,
       hash r = Some h
       /\ In line (Js.split Js.LF output)
       /\ h = Js.substring_to 40 line
       /\ String.length h = 40%nat
       /\ Js.match_hash40 h = true.
Proof.
  unfold parseBlameOutput.
  destruct (parse_lines (Js.split Js.LF output) parse_init) as [st|e] eqn:Hp; [|discriminate].
  intros H Hi. injection H as <-.
  destruct (parse_lines_records _ _ _ Hp) as (new & Hb & _ & Hn & Hh).
  simpl in Hb, Hn. subst new.
  split.
  - apply (f_equal (fun l => l !! i)) in Hn.
    rewrite !list_lookup_fmap, Hi in Hn. simpl in Hn.
    destruct (seqZ _ _ !! i) as [n|] eqn:Hs; [|discriminate].
    apply lookup_seqZ in Hs as [-> _]. simpl in Hn. injection Hn as ->. f_equal. lia.
  - apply (f_equal (fun l => l !! i)) in Hh.
    rewrite !list_lookup_fmap, Hi in Hh. simpl in Hh.
    destruct (hash_lines _ !! i) as [line|] eqn:Hl; [|discriminate].
    simpl in Hh. injection Hh as Hh.
    apply list_elem_of_lookup_2, list_elem_of_In in Hl.
    unfold hash_lines in Hl. apply List.filter_In in Hl as [Hin Hm].
    destruct (hash40_prefix 40 line Hm) as [Hlen Hhex].
    exists (Js.substring_to 40 line), line. repeat split; auto.
Qed.

Lemma records_carry_hash_and_number_witness :
  lineNumber alice_record = Some (Z.of_nat 0 + 1)
  /\ exists h line,
       hash alice_record = Some h
       /\ In line (Js.split Js.LF alice_text)
       /\ h = Js.substring_to 40 line
       /\ String.length h = 40%nat
       /\ Js.match_hash40 h = true.
Proof.
  apply (records_carry_hash_and_number alice_text [alice_record] 0 alice_record).
  - vm_compute. reflexivity.
  - reflexivity.
Defined.

End ParserShape.

(* ===================================================================== *)
(* The date of an `author-time ` line                                    *)
(* ===================================================================== *)

Section DateShape.

Lemma DayFromYear_succ (y : Z) :
  JsDate.DayFromYear (y + 1) = JsDate.DayFromYear y + JsDate.DaysInYear y.
Proof.
  unfold JsDate.DayFromYear, JsDate.DaysInYear.
  destruct (Z.eqb_spec (y mod 4) 0) as [H4|H4]; cbn [negb];
    [destruct (Z.eqb_spec (y mod 100) 0) as [H100|H100]; cbn [negb];
       [destruct (Z.eqb_spec (y mod 400) 0) as [H400|H400]; cbn [negb]|]|];
    Z.div_mod_to_equations; lia.
Qed.

Lemma DaysInYear_cases (y : Z) : JsDate.DaysInYear y = 365 \/ JsDate.DaysInYear y = 366.
Proof.
  unfold JsDate.DaysInYear.
  destruct (negb _); [now left|]. destruct (negb _); [now right|].
  destruct (negb _); [now left|now right].
Qed.

Lemma DayWithinYear_bounds (t : Z) :
  0 <= JsDate.DayWithinYear t < JsDate.DaysInYear (JsDate.YearFromTime t).
Proof.
  unfold JsDate.DayWithinYear, JsDate.YearFromTime.
  pose proof (YearFromDay_spec (JsDate.Day t)) as [Hlo Hhi].
  rewrite DayFromYear_succ in Hhi. lia.
Qed.

Lemma MonthFromTime_bounds (t : Z) : 0 <= JsDate.MonthFromTime t <= 11.
Proof.
  unfold JsDate.MonthFromTime.
  repeat (match goal with |- context [if ?b then _ else _] => destruct b end); lia.
Qed.

Lemma DateFromTime_bounds (t : Z) : 1 <= JsDate.DateFromTime t <= 31.
Proof.
  pose proof (DayWithinYear_bounds t) as Hd.
  unfold JsDate.DateFromTime, JsDate.MonthFromTime, JsDate.InLeapYear in *.
  destruct (DaysInYear_cases (JsDate.YearFromTime t)) as [Hy|Hy]; rewrite Hy in *;
    cbn [Z.eqb Pos.eqb] in *;
    repeat (match goal with
            | |- context [Z.ltb ?a ?b] => destruct (Z.ltb_spec a b)
            end);
    cbv iota; lia.
Qed.

(** Year, month and day of the month depend on the day number only. *)
Lemma date_fields_of_day (t : Z) :
  JsDate.YearFromTime t = JsDate.YearFromDay (JsDate.Day t)
  /\ JsDate.MonthFromTime t = JsDate.MonthFromTime (JsDate.Day t * JsDate.msPerDay)
  /\ JsDate.DateFromTime t = JsDate.DateFromTime (JsDate.Day t * JsDate.msPerDay).
Proof.
  assert (Hday : JsDate.Day (JsDate.Day t * JsDate.msPerDay) = JsDate.Day t).
  { unfold JsDate.Day at 1. apply Z.div_mul. discriminate. }
  unfold JsDate.DateFromTime, JsDate.MonthFromTime, JsDate.InLeapYear,
    JsDate.DayWithinYear, JsDate.YearFromTime.
  now rewrite !Hday.
Qed.

Lemma digit_char_not_T (d : Z) : Ascii.eqb (JsDate.digit_char d) "T" = false.
Proof.
  unfold JsDate.digit_char.
  assert (H : (Z.to_nat (d mod 10) < 10)%nat).
  { pose proof (Z.mod_pos_bound d 10 ltac:(lia)). lia. }
  destruct (Z.to_nat (d mod 10)) as [|k]; [reflexivity|].
  do 9 (destruct k as [|k]; [reflexivity|]). lia.
Qed.

Lemma free_of_cons (c a : ascii) (s : string) :
  free_of c (String a s) = negb (Ascii.eqb a c) && free_of c s.
Proof. reflexivity. Qed.

Lemma free_of_app (c : ascii) (s1 s2 : string) :
  free_of c (String.append s1 s2) = free_of c s1 && free_of c s2.
Proof.
  induction s1 as [|a s1 IH]; [reflexivity|].
  change (String.append (String a s1) s2) with (String a (String.append s1 s2)).
  simpl. rewrite IH. now rewrite andb_assoc.
Qed.

Lemma pad_free_of_T (w : nat) : forall n, free_of "T" (JsDate.pad w n) = true.
Proof.
  induction w as [|w IH]; intros n; [reflexivity|].
  change (JsDate.pad (S w) n)
    with (String.append (JsDate.pad w (n / 10)) (String (JsDate.digit_char n) EmptyString)).
  rewrite free_of_app, IH.
  change (free_of "T" (String (JsDate.digit_char n) EmptyString))
    with (negb (Ascii.eqb (JsDate.digit_char n) "T") && true).
  now rewrite digit_char_not_T.
Qed.

Lemma length_append (s1 s2 : string) :
  String.length (String.append s1 s2) = (String.length s1 + String.length s2)%nat.
Proof.
  induction s1 as [|a s1 IH]; [reflexivity|].
  change (String.append (String a s1) s2) with (String a (String.append s1 s2)).
  simpl. now rewrite IH.
Qed.

Lemma pad_length (w : nat) : forall n, String.length (JsDate.pad w n) = w.
Proof.
  induction w as [|w IH]; intros n; [reflexivity|].
  change (JsDate.pad (S w) n)
    with (String.append (JsDate.pad w (n / 10)) (String (JsDate.digit_char n) EmptyString)).
  rewrite length_append, IH. simpl. lia.
Qed.

Lemma year_string_free_of_T (y : Z) : free_of "T" (JsDate.year_string y) = true.
Proof.
  unfold JsDate.year_string.
  destruct (_ && _); [apply pad_free_of_T|].
  destruct (y <? 0); rewrite free_of_cons, pad_free_of_T; reflexivity.
Qed.

Lemma split_free (c : ascii) (s : string) : free_of c s = true -> Js.split c s = [s].
Proof.
  induction s as [|a s IH]; intros H; [reflexivity|].
  simpl in *. apply andb_true_iff in H as [Ha Hs].
  apply negb_true_iff in Ha. rewrite Ha, (IH Hs). reflexivity.
Qed.

Lemma append_assoc (a b c : string) :
  String.append (String.append a b) c = String.append a (String.append b c).
Proof.
  induction a as [|x a IH]; [reflexivity|].
  change (String x (String.append (String.append a b) c)
          = String x (String.append a (String.append b c))).
  now rewrite IH.
Qed.

Lemma concat_cons2 (x y : string) (l : list string) :
  String.concat EmptyString (x :: y :: l)
  = String.append x (String.concat EmptyString (y :: l)).
Proof. reflexivity. Qed.

Lemma concat_single (x : string) : String.concat EmptyString [x] = x.
Proof. reflexivity. Qed.

(** The part of the ISO string before its `T`. *)
Lemma iso_date_part (t : Z) :
  hd EmptyString (Js.split "T" (JsDate.iso_of_time t)) = calendar_date (JsDate.Day t).
Proof.
  destruct (date_fields_of_day t) as (Hy & Hm & Hd).
  unfold calendar_date. rewrite <- Hy, <- Hm, <- Hd.
  set (y := JsDate.year_string (JsDate.YearFromTime t)).
  set (mm := JsDate.pad 2 (JsDate.MonthFromTime t + 1)).
  set (dd := JsDate.pad 2 (JsDate.DateFromTime t)).
  set (back := String.concat EmptyString
                 [ JsDate.pad 2 (JsDate.HourFromTime t); ":"%string;
                   JsDate.pad 2 (JsDate.MinFromTime t); ":"%string;
                   JsDate.pad 2 (JsDate.SecFromTime t); "."%string;
                   JsDate.pad 3 (JsDate.msFromTime t); "Z"%string ]).
  set (front := String.append y (String.append "-" (String.append mm (String.append "-" dd)))).
  assert (Hiso : JsDate.iso_of_time t = String.append front (String "T" back)).
  { unfold JsDate.iso_of_time. fold y mm dd.
    do 6 rewrite concat_cons2. fold back.
    unfold front. rewrite !append_assoc. reflexivity. }
  rewrite Hiso, split_app.
  assert (Hfree : free_of "T" front = true).
  { unfold front, y, mm, dd.
    rewrite !free_of_app, year_string_free_of_T, !pad_free_of_T. reflexivity. }
  now rewrite (split_free _ _ Hfree).
Qed.

(** X5.  When an `author-time ` line is accepted, its text starts (after
    white space) with an integer n of seconds, at most 8.64e12 in
    magnitude, and the date is the calendar date of day floor(n / 86400)
    in UTC: year, month 01..12 and day 01..31 joined by `-`, ten
    characters for the years 0..9999.  Timestamps of one UTC day give one
    date. *)
Theorem author_time_date_is_utc_day (text d : string) :
  date_of_author_time text = Normal d ->
  exists n,
    Js.parseInt text = Some n
    /\ Z.abs n <= 8640000000000
    /\ d = calendar_date (n / 86400)
    /\ 1 <= JsDate.MonthFromTime (n / 86400 * JsDate.msPerDay) + 1 <= 12
    /\ 1 <= JsDate.DateFromTime (n / 86400 * JsDate.msPerDay) <= 31
    /\ (0 <= JsDate.YearFromDay (n / 86400) <= 9999 -> String.length d = 10%nat).
Proof.
  unfold date_of_author_time, JsDate.toISOString, JsDate.time_of_seconds.
  destruct (Js.parseInt text) as [n|]; [|discriminate].
  destruct (Z.leb_spec (Z.abs (n * 1000)) JsDate.maxTime) as [Hle|]; [|discriminate].
  intros H. injection H as <-.
  assert (Hday : JsDate.Day (n * 1000) = n / 86400).
  { unfold JsDate.Day, JsDate.msPerDay.
    change 86400000 with (86400 * 1000). apply Z.div_mul_cancel_r; discriminate. }
  exists n. split; [reflexivity|]. split; [unfold JsDate.maxTime in Hle; lia|].
  rewrite iso_date_part, Hday. split; [reflexivity|].
  pose proof (MonthFromTime_bounds (n / 86400 * JsDate.msPerDay)).
  pose proof (DateFromTime_bounds (n / 86400 * JsDate.msPerDay)).
  split; [lia|]. split; [lia|].
  intros Hy. unfold calendar_date, JsDate.year_string.
  replace ((0 <=? JsDate.YearFromDay (n / 86400)) && (JsDate.YearFromDay (n / 86400) <=? 9999))
    with true
    by (symmetry; apply andb_true_iff; split; apply Z.leb_le; lia).
  rewrite !length_append, !pad_length. reflexivity.
Qed.

Lemma author_time_date_is_utc_day_witness :
  exists n,
    Js.parseInt "1700000000" = Some n
    /\ Z.abs n <= 8640000000000
    /\ "2023-11-14"%string = calendar_date (n / 86400)
    /\ 1 <= JsDate.MonthFromTime (n / 86400 * JsDate.msPerDay) + 1 <= 12
    /\ 1 <= JsDate.DateFromTime (n / 86400 * JsDate.msPerDay) <= 31
    /\ (0 <= JsDate.YearFromDay (n / 86400) <= 9999
        -> String.length "2023-11-14" = 10%nat).
Proof.
  apply (author_time_date_is_utc_day "1700000000" "2023-11-14"). reflexivity.
Defined.

End DateShape.

(* ===================================================================== *)
(* Further properties of the provider                                    *)
(* ===================================================================== *)

Section DirectStyle.

Ltac fetch_fails :=
  unfold throw, bind, ret; cbn [error_message];
  rewrite (surjective_pairing (showError _ _)), showError_returns; reflexivity.

(** getGitBlame as a function of the answers of the outside world. *)
Lemma getGitBlame_outcome (env : Env) (filePath : string) (p : Provider) :
  getGitBlame env filePath p
  = (Normal (fetch_result (fetch_outcome env filePath)), after_fetch env filePath p).
Proof.
  unfold after_fetch, getGitBlame, fetch_outcome, try_catch, bind at 1.
  rewrite fileExists_eq.
  destruct (fs_access env filePath); cbn [negb]; [|fetch_fails].
  unfold bind at 1. rewrite isGitInstalled_eq, traced_traced.
  destruct (exec env "git --version" None) as [v|e0]; cbn [negb]; [|fetch_fails].
  unfold bind at 1. rewrite isGitRepository_eq, traced_traced.
  destruct (exec env "git rev-parse --git-dir" _) as [out|e1]; cbn [negb]; [|fetch_fails].
  destruct (String.eqb out EmptyString); cbn [negb]; [fetch_fails|].
  unfold bind at 1. rewrite execAsync_eq, traced_traced.
  destruct (exec env (blame_command filePath) _) as [stdout|e2]; [|fetch_fails].
  unfold lift.
  destruct (parseBlameOutput stdout) as [records|e3]; [reflexivity|fetch_fails].
Qed.

(** updateDecorations past its guard is [reconcile]. *)
Lemma update_reconcile (env : Env) (ed : Editor) (p : Provider) :
  enabled p = true -> updateDecorations env (Some ed) p = reconcile env ed p.
Proof.
  intros Hon. unfold updateDecorations, reconcile, skips_fetch, resolve_blame.
  unfold bind at 1, get_enabled. cbv beta iota. rewrite Hon. cbn [negb].
  unfold bind at 1.
  destruct (clear env p) as [c p1] eqn:Hclear.
  pose proof (clear_returns env p) as Hc. rewrite Hclear in Hc. cbn [fst] in Hc.
  subst c. cbn [snd].
  destruct (selections ed) as [|s ss] eqn:Hsels; [reflexivity|]. rewrite <- Hsels.
  destruct (size (selectedLines (selections ed)) =? 0)%nat; [reflexivity|].
  destruct (isUntitled ed); [reflexivity|].
  destruct (String.eqb (scheme ed) "file"); [|reflexivity].
  cbn [orb negb].
  unfold bind at 1, cache_get. cbv beta iota.
  destruct (cache p1 !! fsPath ed) as [cached|].
  - unfold bind at 1, ret. unfold bind at 1, lift.
    destruct (map_decorations ed _) as [ds|e]; [|reflexivity].
    unfold bind at 1, setDecorations. cbv beta iota.
    destruct (0 <? length cached)%nat; reflexivity.
  - unfold bind at 1. unfold bind at 1. rewrite getGitBlame_outcome.
    destruct (0 <? length (fetch_result (fetch_outcome env (fsPath ed))))%nat eqn:Hlen.
    + unfold bind at 1, cache_set, ret. cbv beta iota.
      unfold bind at 1, lift.
      destruct (map_decorations ed _) as [ds|e]; [|reflexivity].
      unfold bind at 1, setDecorations. cbv beta iota. rewrite Hlen. reflexivity.
    + unfold bind at 1, ret. cbv beta iota.
      unfold bind at 1, lift.
      destruct (map_decorations ed _) as [ds|e]; [|reflexivity].
      unfold bind at 1, setDecorations. cbv beta iota. rewrite Hlen. reflexivity.
Qed.

End DirectStyle.

Section Frames.

Lemma clear_eq (env : Env) (p : Provider) :
  clear env p
  = (Normal tt,
     match activeTextEditor env with
     | Some active => snd (setDecorations (editor_id active) [] p)
     | None => p
     end).
Proof. unfold clear. destruct (activeTextEditor env); reflexivity. Qed.

Lemma clear_frame (env : Env) (p : Provider) :
  enabled (snd (clear env p)) = enabled p
  /\ cache (snd (clear env p)) = cache p
  /\ statusBarText (snd (clear env p)) = statusBarText p
  /\ List.filter is_error_message (trace (snd (clear env p)))
     = List.filter is_error_message (trace p).
Proof.
  rewrite clear_eq. destruct (activeTextEditor env); cbn; repeat split.
  rewrite List.filter_app. simpl. apply app_nil_r.
Qed.

(** showError touches the marker, the status bar and the trace only. *)
Lemma showError_frame (message : string) (p : Provider) :
  enabled (snd (showError message p)) = enabled p
  /\ decorations (snd (showError message p)) = decorations p
  /\ (cache (snd (showError message p)) = cache p
      \/ cache (snd (showError message p)) = <["error_shown"%string := []]> (cache p)).
Proof.
  unfold showError. unfold_monad. simpl.
  destruct (_ && _); [now repeat split; try left|].
  destruct (Js.includes _ _); [now repeat split; try left|]. simpl.
  repeat (destruct (String.eqb message _); simpl; [now repeat split; try right|]).
  now repeat split; try right.
Qed.

Lemma after_fetch_frame (env : Env) (filePath : string) (p : Provider) :
  enabled (after_fetch env filePath p) = enabled p
  /\ decorations (after_fetch env filePath p) = decorations p
  /\ (cache (after_fetch env filePath p) = cache p
      \/ cache (after_fetch env filePath p) = <["error_shown"%string := []]> (cache p)).
Proof.
  unfold after_fetch.
  destruct (classified_message _) as [msg|]; [|now repeat split; try left].
  apply (showError_frame msg (traced _ p)).
Qed.

Lemma after_fetch_outside (env : Env) (filePath : string) (p : Provider) :
  List.filter is_outside_call (trace (after_fetch env filePath p))
  = List.filter is_outside_call (trace p)
    ++ fetch_calls env filePath (fetch_outcome env filePath).
Proof.
  unfold after_fetch.
  destruct (classified_message _); [rewrite showError_no_outside_call|];
    unfold traced; cbn [trace]; now rewrite List.filter_app, fetch_calls_outside.
Qed.

(** A fetch that succeeds leaves the provider alone but for the trace. *)
Lemma after_fetch_fetched (env : Env) (filePath : string) (p : Provider)
    (records : list BlameInfo) :
  fetch_outcome env filePath = Fetched records ->
  after_fetch env filePath p = traced (fetch_calls env filePath (Fetched records)) p.
Proof. intros H. unfold after_fetch. now rewrite H. Qed.

Lemma fetch_result_nonempty (o : FetchOutcome) :
  fetch_result o <> [] -> o = Fetched (fetch_result o).
Proof. destruct o; simpl; congruence. Qed.

(** What resolving the records does to the provider. *)
Lemma resolve_blame_frame (env : Env) (ed : Editor) (p : Provider) :
  enabled (snd (resolve_blame env ed p)) = enabled p
  /\ decorations (snd (resolve_blame env ed p)) = decorations p
  /\ keeps_entries p (snd (resolve_blame env ed p)).
Proof.
  unfold resolve_blame, keeps_entries.
  destruct (cache p !! fsPath ed) as [cached|] eqn:Hc; [now repeat split|].
  destruct (after_fetch_frame env (fsPath ed) p) as (He & Hd & Hcache).
  assert (Hkeep : forall k v, k <> "error_shown"%string ->
                    cache p !! k = Some v ->
                    cache (after_fetch env (fsPath ed) p) !! k = Some v).
  { intros k v Hk Hv. destruct Hcache as [-> | ->]; [exact Hv|].
    now rewrite lookup_insert_ne. }
  cbn [snd]. destruct (0 <? length _)%nat; cbn; [|now repeat split].
  repeat split; auto. intros k v Hk Hv.
  rewrite lookup_insert_ne; [now apply Hkeep|]. intros <-. congruence.
Qed.

End Frames.

Section EntriesKept.

Lemma keeps_entries_refl (p : Provider) : keeps_entries p p.
Proof. intros k v _ H. exact H. Qed.

Lemma keeps_entries_trans (p q r : Provider) :
  keeps_entries p q -> keeps_entries q r -> keeps_entries p r.
Proof. intros H1 H2 k v Hk Hv. apply (H2 k v Hk), (H1 k v Hk), Hv. Qed.

Lemma keeps_entries_same_cache (p q : Provider) : cache q = cache p -> keeps_entries p q.
Proof. intros H k v _ Hv. now rewrite H. Qed.

Lemma reconcile_frame (env : Env) (ed : Editor) (p : Provider) :
  enabled (snd (reconcile env ed p)) = enabled p
  /\ keeps_entries p (snd (reconcile env ed p)).
Proof.
  unfold reconcile. cbv zeta.
  destruct (clear_frame env p) as (He & Hcc & _).
  destruct (skips_fetch ed); cbn [snd];
    [split; [exact He|now apply keeps_entries_same_cache]|].
  destruct (resolve_blame_frame env ed (snd (clear env p))) as (He2 & _ & Hk2).
  destruct (resolve_blame env ed (snd (clear env p))) as [records p2]. cbn [snd] in *.
  assert (Hk : keeps_entries p p2).
  { eapply keeps_entries_trans; [apply keeps_entries_same_cache, Hcc|exact Hk2]. }
  destruct (map_decorations ed _) as [ds|e]; cbn [snd]; [|split; [congruence|exact Hk]].
  destruct (0 <? length records)%nat; cbn; (split; [congruence|exact Hk]).
Qed.

Lemma update_frame (env : Env) (editor : option Editor) (p : Provider) :
  enabled (snd (updateDecorations env editor p)) = enabled p
  /\ keeps_entries p (snd (updateDecorations env editor p)).
Proof.
  destruct editor as [ed|];
    [destruct (Bool.bool_dec (enabled p) true) as [Hon|Hoff]|].
  - rewrite (update_reconcile env ed p Hon). apply reconcile_frame.
  - apply not_true_is_false in Hoff.
    rewrite update_guard by now left. split; [reflexivity|apply keeps_entries_refl].
  - rewrite update_guard by now right. split; [reflexivity|apply keeps_entries_refl].
Qed.

(** toggle, with the call it makes when it turns the blame on. *)
Lemma toggle_eq (env : Env) (p : Provider) :
  toggle env p
  = (Normal tt,
     snd (set_status_text
            (if negb (enabled p) then ACTIVE_TEXT else "$(git-commit) Git Blame (Off)")
            (if negb (enabled p)
             then snd (updateDecorations env (activeTextEditor env)
                         (snd (set_enabled true p)))
             else snd (clear env (snd (set_enabled false p)))))).
Proof.
  unfold toggle. unfold bind at 1, get_enabled. cbv beta iota.
  unfold bind at 1, set_enabled. cbv beta iota.
  destruct (enabled p); cbn [negb].
  - unfold bind at 1, clear. destruct (activeTextEditor env); reflexivity.
  - unfold bind at 1, try_catch.
    destruct (updateDecorations env (activeTextEditor env) _) as [[u|e] p1]; reflexivity.
Qed.

Lemma toggle_frame (env : Env) (p : Provider) :
  enabled (snd (toggle env p)) = negb (enabled p)
  /\ keeps_entries p (snd (toggle env p)).
Proof.
  rewrite toggle_eq. cbn [snd set_status_text enabled cache].
  destruct (enabled p) eqn:Hon; cbn [negb].
  - destruct (clear_frame env (snd (set_enabled false p))) as (He & Hc & _).
    split; [exact He|]. unfold keeps_entries. cbn [cache]. now rewrite Hc.
  - destruct (update_frame env (activeTextEditor env) (snd (set_enabled true p)))
      as (He & Hk).
    split; [exact He|exact Hk].
Qed.

Lemma keeps_entries_step (p : Provider) (ev : Event) : keeps_entries p (step p ev).
Proof.
  destruct ev as [env editor|env]; simpl.
  - apply update_frame.
  - apply toggle_frame.
Qed.

Lemma keeps_entries_run (evs : list Event) :
  forall p k v,
    k <> "error_shown"%string -> cache p !! k = Some v -> cache (run evs p) !! k = Some v.
Proof.
  induction evs as [|ev evs IH]; intros p k v Hk Hv; simpl; [exact Hv|].
  apply IH; [exact Hk|]. now apply keeps_entries_step.
Qed.

End EntriesKept.

Section Caching.

(** X7.  A line is selected exactly when some selection spans it, both
    ends included; a selection whose end lies before its start selects
    nothing. *)
Theorem selected_lines_are_the_spans (sels : list (Z * Z)) (line : Z) :
  line ∈ selectedLines sels
  <-> exists first last, In (first, last) sels /\ first <= line <= last.
Proof.
  unfold selectedLines. rewrite elem_of_list_to_set, list_elem_of_In, in_flat_map.
  split.
  - intros ([first last] & Hin & Hl). unfold selection_lines in Hl.
    apply list_elem_of_In, elem_of_seqZ in Hl. simpl in Hl.
    exists first, last. split; [exact Hin|lia].
  - intros (first & last & Hin & Hl). exists (first, last). split; [exact Hin|].
    unfold selection_lines. apply list_elem_of_In, elem_of_seqZ. simpl. lia.
Qed.

Lemma reconcile_hit (env : Env) (ed : Editor) (p : Provider) (records : list BlameInfo) :
  cache p !! fsPath ed = Some records ->
  reconcile env ed p
  = (let p1 := snd (clear env p) in
     if skips_fetch ed then (Normal tt, p1) else
     match map_decorations ed (filter_selected (selectedLines (selections ed)) records) with
     | Throw e => (Throw e, p1)
     | Normal ds =>
         let p3 := snd (setDecorations (editor_id ed) ds p1) in
         (Normal tt,
          if (0 <? length records)%nat
          then snd (set_status_tooltip "Click to toggle Git blame"
                      (snd (set_status_text ACTIVE_TEXT p3)))
          else p3)
     end).
Proof.
  intros Hc. unfold reconcile, resolve_blame.
  destruct (clear_frame env p) as (_ & Hcc & _). rewrite Hcc, Hc. reflexivity.
Qed.

Lemma cache_hit_quiet (env : Env) (ed : Editor) (p : Provider) (records : list BlameInfo) :
  cache p !! fsPath ed = Some records ->
  cache (snd (updateDecorations env (Some ed) p)) = cache p
  /\ List.filter is_outside_call (trace (snd (updateDecorations env (Some ed) p)))
     = List.filter is_outside_call (trace p).
Proof.
  intros Hc. destruct (enabled p) eqn:Hon.
  - rewrite (update_reconcile env ed p Hon), (reconcile_hit env ed p records Hc).
    destruct (clear_frame env p) as (_ & Hcc & _).
    pose proof (clear_no_outside_call env p) as Hco.
    cbv zeta. destruct (skips_fetch ed); [now split|].
    destruct (map_decorations ed _) as [ds|e]; [|now split].
    destruct (0 <? length records)%nat; cbn; (split; [exact Hcc|]);
      rewrite ?List.filter_app; simpl; rewrite ?app_nil_r; exact Hco.
  - rewrite update_guard by now left. now split.
Qed.

(** X8.  Once the records of a file are in the cache, a reconcile of that
    file asks neither the file system nor git: it makes no outside call,
    leaves the cache as it is, and its whole result is the same whatever
    the file system and git would answer.  Cached records are used as
    they are, however the file has changed since. *)
Theorem cached_file_is_never_refetched
    (env env' : Env) (ed : Editor) (p : Provider) (records : list BlameInfo) :
  cache p !! fsPath ed = Some records ->
  activeTextEditor env' = activeTextEditor env ->
  updateDecorations env' (Some ed) p = updateDecorations env (Some ed) p
  /\ cache (snd (updateDecorations env (Some ed) p)) = cache p
  /\ List.filter is_outside_call (trace (snd (updateDecorations env (Some ed) p)))
     = List.filter is_outside_call (trace p).
Proof.
  intros Hc Hactive. split; [|now apply (cache_hit_quiet env ed p records)].
  destruct (enabled p) eqn:Hon.
  - rewrite !(update_reconcile _ ed p Hon), !(reconcile_hit _ ed p records Hc).
    now rewrite !clear_eq, Hactive.
  - now rewrite !update_guard by now left.
Qed.

Lemma cached_file_is_never_refetched_witness :
  updateDecorations env_no_repo (Some editor_selecting) provider_cached
  = updateDecorations env_a (Some editor_selecting) provider_cached
  /\ cache (snd (updateDecorations env_a (Some editor_selecting) provider_cached))
     = cache provider_cached
  /\ List.filter is_outside_call
       (trace (snd (updateDecorations env_a (Some editor_selecting) provider_cached)))
     = List.filter is_outside_call (trace provider_cached).
Proof.
  apply (cached_file_is_never_refetched env_a env_no_repo editor_selecting
           provider_cached ten_records).
  - vm_compute. reflexivity.
  - reflexivity.
Defined.

(** The cache after a reconcile that had to fetch. *)
Lemma reconcile_miss_cache (env : Env) (ed : Editor) (p : Provider) :
  enabled p = true ->
  skips_fetch ed = false ->
  cache p !! fsPath ed = None ->
  cache (snd (updateDecorations env (Some ed) p))
  = cache (snd (resolve_blame env ed (snd (clear env p)))).
Proof.
  intros Hon Hskip Hc. rewrite (update_reconcile env ed p Hon).
  unfold reconcile. rewrite Hskip. cbv zeta.
  destruct (resolve_blame env ed (snd (clear env p))) as [records p2].
  destruct (map_decorations ed _) as [ds|e]; [|reflexivity].
  destruct (0 <? length records)%nat; reflexivity.
Qed.

Lemma fetch_caches (env : Env) (ed : Editor) (p : Provider) :
  enabled p = true ->
  skips_fetch ed = false ->
  cache p !! fsPath ed = None ->
  fetch_result (fetch_outcome env (fsPath ed)) <> [] ->
  cache (snd (updateDecorations env (Some ed) p)) !! fsPath ed
  = Some (fetch_result (fetch_outcome env (fsPath ed))).
Proof.
  intros Hon Hskip Hc Hne.
  rewrite (reconcile_miss_cache env ed p Hon Hskip Hc).
  destruct (clear_frame env p) as (_ & Hcc & _).
  unfold resolve_blame. rewrite Hcc, Hc.
  destruct (fetch_result (fetch_outcome env (fsPath ed))) as [|r rs] eqn:Hr; [congruence|].
  cbn. apply lookup_insert_eq.
Qed.

(** X9.  What a reconcile caches when the file is not in the cache: the
    fetched records when there are any, and nothing when the fetch fails
    or gives no record, so that the next reconcile fetches again. *)
Theorem only_nonempty_fetch_is_cached (env : Env) (ed : Editor) (p : Provider) :
  enabled p = true ->
  skips_fetch ed = false ->
  cache p !! fsPath ed = None ->
  fsPath ed <> "error_shown"%string ->
  cache (snd (updateDecorations env (Some ed) p)) !! fsPath ed
  = match fetch_result (fetch_outcome env (fsPath ed)) with
    | [] => None
    | records => Some records
    end.
Proof.
  intros Hon Hskip Hc Hkey.
  destruct (fetch_result (fetch_outcome env (fsPath ed))) as [|r rs] eqn:Hr.
  - rewrite (reconcile_miss_cache env ed p Hon Hskip Hc).
    destruct (clear_frame env p) as (_ & Hcc & _).
    unfold resolve_blame. rewrite Hcc, Hc, Hr. cbn.
    destruct (after_fetch_frame env (fsPath ed) (snd (clear env p))) as (_ & _ & [-> | ->]).
    + now rewrite Hcc.
    + rewrite lookup_insert_ne by congruence. now rewrite Hcc.
  - rewrite <- Hr. apply fetch_caches; auto. congruence.
Qed.

Lemma only_nonempty_fetch_is_cached_witness :
  cache (snd (updateDecorations env_a (Some editor_a) new_provider)) !! fsPath editor_a
  = match fetch_result (fetch_outcome env_a (fsPath editor_a)) with
    | [] => None
    | records => Some records
    end.
Proof.
  apply (only_nonempty_fetch_is_cached env_a editor_a new_provider);
    try reflexivity. discriminate.
Defined.

(** X10.  A reconcile that fetched at least one record serves every later
    reconcile of that file from the cache: whatever happens in between,
    and whatever the world answers then, the later reconcile makes no
    outside call. *)
Theorem fetch_once_then_cache
    (env env' : Env) (ed ed' : Editor) (p : Provider) (between : list Event) :
  enabled p = true ->
  skips_fetch ed = false ->
  cache p !! fsPath ed = None ->
  fsPath ed <> "error_shown"%string ->
  fetch_result (fetch_outcome env (fsPath ed)) <> [] ->
  fsPath ed' = fsPath ed ->
  let q := run between (snd (updateDecorations env (Some ed) p)) in
  List.filter is_outside_call (trace (snd (updateDecorations env' (Some ed') q)))
  = List.filter is_outside_call (trace q).
Proof.
  intros Hon Hskip Hc Hkey Hne Hpath q.
  assert (Hq : cache q !! fsPath ed' = Some (fetch_result (fetch_outcome env (fsPath ed)))).
  { rewrite Hpath. apply (keeps_entries_run between _ _ _ Hkey).
    now apply fetch_caches. }
  now destruct (cache_hit_quiet env' ed' q _ Hq).
Qed.

Lemma fetch_once_then_cache_witness :
  let q := run [EvToggle env_b; EvToggle env_b]
               (snd (updateDecorations env_a (Some editor_a) new_provider)) in
  List.filter is_outside_call (trace (snd (updateDecorations env_no_repo (Some editor_a) q)))
  = List.filter is_outside_call (trace q).
Proof.
  apply (fetch_once_then_cache env_a env_no_repo editor_a editor_a new_provider
           [EvToggle env_b; EvToggle env_b]);
    try reflexivity; vm_compute; discriminate.
Defined.

End Caching.

Section Lifetimes.



(** X14.  While the blame is off, reconciles do nothing at all: a run of
    reconciles from a provider that is off ends in the same provider. *)
Theorem reconciles_are_inert_while_off (evs : list Event) (p : Provider) :
  forallb is_update evs = true ->
  enabled p = false ->
  run evs p = p.
Proof.
  induction evs as [|ev evs IH]; intros Hup Hoff; [reflexivity|].
  simpl in Hup. apply andb_true_iff in Hup as [Hev Hevs].
  destruct ev as [env editor|env]; [|discriminate].
  simpl. rewrite update_guard by now left. now apply IH.
Qed.

Lemma reconciles_are_inert_while_off_witness :
  run [EvUpdate env_a (Some editor_a); EvUpdate env_b (Some editor_b)] off_beside_a
  = off_beside_a.
Proof.
  apply (reconciles_are_inert_while_off
           [EvUpdate env_a (Some editor_a); EvUpdate env_b (Some editor_b)] off_beside_a).
  - reflexivity.
  - vm_compute. reflexivity.
Defined.

(** X13.  toggle flips the flag and never throws, whatever the reconcile
    it starts does.  Turning the blame off makes no outside call, leaves
    the cache as it is, empties the decorations of the active editor and
    of no other, and sets the label to "Git Blame (Off)". *)
Theorem toggle_flips_and_clears (env : Env) (p : Provider) :
  fst (toggle env p) = Normal tt
  /\ enabled (snd (toggle env p)) = negb (enabled p)
  /\ (enabled p = true ->
      cache (snd (toggle env p)) = cache p
      /\ statusBarText (snd (toggle env p)) = "$(git-commit) Git Blame (Off)"%string
      /\ List.filter is_outside_call (trace (snd (toggle env p)))
         = List.filter is_outside_call (trace p)
      /\ decorations (snd (toggle env p))
         = match activeTextEditor env with
           | Some active => <[editor_id active := []]> (decorations p)
           | None => decorations p
           end).
Proof.
  split; [now rewrite toggle_eq|]. split; [apply toggle_frame|].
  intros Hon. rewrite toggle_eq, Hon. cbn [negb snd]. rewrite clear_eq.
  destruct (activeTextEditor env); cbn; repeat split;
    rewrite ?List.filter_app; simpl; now rewrite ?app_nil_r.
Qed.

Lemma toggle_flips_and_clears_witness :
  cache (snd (toggle env_a provider_cached)) = cache provider_cached
  /\ statusBarText (snd (toggle env_a provider_cached))
     = "$(git-commit) Git Blame (Off)"%string
  /\ List.filter is_outside_call (trace (snd (toggle env_a provider_cached)))
     = List.filter is_outside_call (trace provider_cached)
  /\ decorations (snd (toggle env_a provider_cached))
     = match activeTextEditor env_a with
       | Some active => <[editor_id active := []]> (decorations provider_cached)
       | None => decorations provider_cached
       end.
Proof.
  apply (proj2 (proj2 (toggle_flips_and_clears env_a provider_cached))). reflexivity.
Defined.

End Lifetimes.

Section Decorating.

Lemma map_decorations_sound (ed : Editor) (infos : list BlameInfo) :
  forall ds,
    map_decorations ed infos = Normal ds ->
    map rendered ds = infos
    /\ Forall (fun d => lineNumber (rendered d) = Some (range_line d + 1)
                        /\ 0 <= range_line d < lineCount ed) ds.
Proof.
  induction infos as [|info rest IH]; intros ds H; simpl in H.
  - injection H as <-. split; [reflexivity|constructor].
  - unfold decoration_of, lineAt in H.
    destruct (lineNumber info) as [n|] eqn:Hn; [|discriminate].
    destruct ((0 <=? n - 1) && (n - 1 <? lineCount ed)) eqn:Hr; [|discriminate].
    destruct (map_decorations ed rest) as [ds'|]; [|discriminate].
    injection H as <-. destruct (IH ds' eq_refl) as [Hm Hf].
    apply andb_true_iff in Hr as [Hlo Hhi].
    apply Z.leb_le in Hlo. apply Z.ltb_lt in Hhi.
    split; [simpl; now f_equal|].
    constructor; [simpl; split; [rewrite Hn; f_equal; lia|lia]|exact Hf].
Qed.

(** X11.  With the blame on, a reconcile of the active editor always
    leaves that editor with a list of decorations, whichever way it ends,
    and each of them sits on a selected line inside the document and
    renders a record whose lineNumber is that line plus one. *)
Theorem decorations_lie_on_selected_lines (env : Env) (ed : Editor) (p : Provider) :
  enabled p = true ->
  activeTextEditor env = Some ed ->
  exists ds,
    decorations (snd (updateDecorations env (Some ed) p)) !! editor_id ed = Some ds
    /\ Forall (fun d => range_line d ∈ selectedLines (selections ed)
                        /\ 0 <= range_line d < lineCount ed
                        /\ lineNumber (rendered d) = Some (range_line d + 1)) ds.
Proof.
  intros Hon Hactive. rewrite (update_reconcile env ed p Hon).
  unfold reconcile. cbv zeta.
  assert (H1 : decorations (snd (clear env p)) !! editor_id ed = Some []).
  { rewrite clear_eq, Hactive. cbn. apply lookup_insert_eq. }
  destruct (skips_fetch ed); [exists []; split; [exact H1|constructor]|].
  destruct (resolve_blame_frame env ed (snd (clear env p))) as (_ & Hd & _).
  destruct (resolve_blame env ed (snd (clear env p))) as [records p2]. cbn [snd] in Hd.
  destruct (map_decorations ed _) as [ds|e] eqn:Hm.
  - exists ds. split.
    + destruct (0 <? length records)%nat; cbn; apply lookup_insert_eq.
    + destruct (map_decorations_sound _ _ _ Hm) as [Hr Hf].
      rewrite List.Forall_forall in *. intros d Hin.
      destruct (Hf d Hin) as [Hn Hdoc].
      assert (Hsel : In (rendered d)
                       (filter_selected (selectedLines (selections ed)) records)).
      { rewrite <- Hr. now apply in_map. }
      apply filter_selected_In in Hsel as [_ (n & Hn' & Hs)].
      rewrite Hn in Hn'. injection Hn' as <-.
      replace (range_line d + 1 - 1) with (range_line d) in Hs by lia.
      now repeat split.
  - exists []. cbn [snd]. rewrite Hd. split; [exact H1|constructor].
Qed.

Lemma decorations_lie_on_selected_lines_witness :
  exists ds,
    decorations (snd (updateDecorations env_a (Some editor_a) new_provider))
      !! editor_id editor_a = Some ds
    /\ Forall (fun d => range_line d ∈ selectedLines (selections editor_a)
                        /\ 0 <= range_line d < lineCount editor_a
                        /\ lineNumber (rendered d) = Some (range_line d + 1)) ds.
Proof.
  apply (decorations_lie_on_selected_lines env_a editor_a new_provider); reflexivity.
Defined.

(** X12.  A reconcile throws only out of `lineAt`: when every selected
    line lies inside the document, updateDecorations returns, whatever is
    in the cache and whatever the fetch does. *)
Theorem update_returns_when_selection_in_document
    (env : Env) (ed : Editor) (p : Provider) :
  (forall line, line ∈ selectedLines (selections ed) -> 0 <= line < lineCount ed) ->
  fst (updateDecorations env (Some ed) p) = Normal tt.
Proof.
  intros Hdoc. destruct (enabled p) eqn:Hon; [|now rewrite update_guard by now left].
  rewrite (update_reconcile env ed p Hon). unfold reconcile. cbv zeta.
  destruct (skips_fetch ed); [reflexivity|].
  destruct (resolve_blame env ed (snd (clear env p))) as [records p2].
  destruct (map_decorations_ok ed
              (filter_selected (selectedLines (selections ed)) records))
    as (ds & -> & _); [|reflexivity].
  intros info Hin. apply filter_selected_In in Hin as [_ (n & Hn & Hsel)].
  exists n. split; [exact Hn|now apply Hdoc].
Qed.

Lemma update_returns_when_selection_in_document_witness :
  fst (updateDecorations env_a (Some editor_selecting) provider_cached) = Normal tt.
Proof.
  apply (update_returns_when_selection_in_document env_a editor_selecting provider_cached).
  assert (Hsel : selectedLines (selections editor_selecting) = {[2; 3; 5]})
    by (vm_compute; reflexivity).
  rewrite Hsel. intros line H. simpl. set_unfold. lia.
Defined.

End Decorating.

Section Errors.

Lemma reconcile_failed_fetch (env : Env) (ed : Editor) (p : Provider) :
  enabled p = true ->
  skips_fetch ed = false ->
  cache p !! fsPath ed = None ->
  fetch_result (fetch_outcome env (fsPath ed)) = [] ->
  updateDecorations env (Some ed) p
  = (Normal tt,
     snd (setDecorations (editor_id ed) [] (after_fetch env (fsPath ed) (snd (clear env p))))).
Proof.
  intros Hon Hskip Hc Hr. rewrite (update_reconcile env ed p Hon).
  unfold reconcile, resolve_blame. rewrite Hskip. cbv zeta.
  destruct (clear_frame env p) as (_ & Hcc & _). rewrite Hcc, Hc, Hr.
  reflexivity.
Qed.

(** X17.  A reconcile in a directory that is no repository shows its one
    notice and nothing else.  While the key `error_shown` is missing it
    writes the status text "Not a Git Repository" with its tooltip and
    sets the key.  Once the key is there, for whatever earlier error, the
    same failure leaves status text and tooltip as they were.  Neither
    way is an error message shown, and the editor ends with no
    decoration. *)
Theorem non_repository_notice (env : Env) (ed : Editor) (p : Provider) :
  enabled p = true ->
  skips_fetch ed = false ->
  cache p !! fsPath ed = None ->
  fetch_outcome env (fsPath ed) = NotARepository ->
  let p' := snd (updateDecorations env (Some ed) p) in
  (cache p !! "error_shown"%string = None ->
     statusBarText p' = NOT_A_REPO_TEXT
     /\ statusBarTooltip p' = Some "Current file is not in a Git repository"%string
     /\ has_error_marker p')
  /\ (has_error_marker p ->
        statusBarText p' = statusBarText p /\ statusBarTooltip p' = statusBarTooltip p)
  /\ List.filter is_error_message (trace p') = List.filter is_error_message (trace p)
  /\ decorations p' !! editor_id ed = Some [].
Proof.
  intros Hon Hskip Hc Ho p'. unfold p'.
  rewrite (reconcile_failed_fetch env ed p Hon Hskip Hc) by now rewrite Ho.
  unfold after_fetch. rewrite Ho. cbn [classified_message fetch_calls snd].
  destruct (clear_frame env p) as (_ & Hcc & Hst & Hmsg).
  assert (Htt : statusBarTooltip (snd (clear env p)) = statusBarTooltip p).
  { rewrite clear_eq. now destruct (activeTextEditor env). }
  set (p1 := snd (clear env p)) in *.
  unfold showError. unfold_monad. cbn -[lookup insert].
  rewrite Hcc.
  destruct (bool_decide (is_Some (cache p !! "error_shown"%string))) eqn:Hm.
  - apply bool_decide_eq_true in Hm. cbn -[lookup insert].
    split; [|split; [|split]].
    + intros Hnone. rewrite Hnone in Hm. destruct Hm as [? Hm]. discriminate.
    + intros _. split; [exact Hst|exact Htt].
    + rewrite !List.filter_app, Hmsg. simpl. now rewrite !app_nil_r.
    + apply lookup_insert_eq.
  - apply bool_decide_eq_false in Hm. cbn -[lookup insert].
    split; [|split; [|split]].
    + intros _. split; [reflexivity|]. split; [reflexivity|].
      unfold has_error_marker. cbn -[lookup insert]. rewrite lookup_insert_eq. eauto.
    + intros H. contradiction.
    + rewrite !List.filter_app, Hmsg. simpl. now rewrite !app_nil_r.
    + apply lookup_insert_eq.
Qed.

Lemma non_repository_notice_witness :
  let p' := snd (updateDecorations env_no_repo (Some editor_a) new_provider) in
  (cache new_provider !! "error_shown"%string = None ->
     statusBarText p' = NOT_A_REPO_TEXT
     /\ statusBarTooltip p' = Some "Current file is not in a Git repository"%string
     /\ has_error_marker p')
  /\ (has_error_marker new_provider ->
        statusBarText p' = statusBarText new_provider
        /\ statusBarTooltip p' = statusBarTooltip new_provider)
  /\ List.filter is_error_message (trace p')
     = List.filter is_error_message (trace new_provider)
  /\ decorations p' !! editor_id editor_a = Some [].
Proof.
  apply (non_repository_notice env_no_repo editor_a new_provider); reflexivity.
Defined.

Lemma missing_git_step (env : Env) (ed : Editor) (p : Provider) :
  enabled p = true ->
  skips_fetch ed = false ->
  cache p !! fsPath ed = None ->
  fsPath ed <> "error_shown"%string ->
  fetch_outcome env (fsPath ed) = ToolNotInstalled ->
  let p' := snd (updateDecorations env (Some ed) p) in
  enabled p' = true
  /\ cache p' !! fsPath ed = None
  /\ List.filter is_error_message (trace p')
     = List.filter is_error_message (trace p) ++ [ShowErrorMessage GIT_MISSING_TEXT].
Proof.
  intros Hon Hskip Hc Hkey Ho p'. unfold p'.
  rewrite (reconcile_failed_fetch env ed p Hon Hskip Hc) by now rewrite Ho.
  unfold after_fetch. rewrite Ho. cbn [classified_message fetch_calls snd].
  destruct (clear_frame env p) as (He & Hcc & _ & Hmsg).
  set (p1 := snd (clear env p)) in *.
  unfold showError. unfold_monad. cbn -[lookup insert].
  rewrite He, Hcc. repeat split.
  - exact Hon.
  - rewrite lookup_insert_ne by congruence. exact Hc.
  - rewrite !List.filter_app, Hmsg. simpl. now rewrite !app_nil_r.
Qed.

(** X18.  A missing git is reported on every reconcile, not once: n
    reconciles of a file that is not cached, with `git --version`
    failing each time, show the "Git is not installed" message n times. *)
Theorem missing_git_is_reported_each_time
    (env : Env) (ed : Editor) (n : nat) (p : Provider) :
  enabled p = true ->
  skips_fetch ed = false ->
  cache p !! fsPath ed = None ->
  fsPath ed <> "error_shown"%string ->
  fetch_outcome env (fsPath ed) = ToolNotInstalled ->
  List.filter is_error_message (trace (run (repeat (EvUpdate env (Some ed)) n) p))
  = List.filter is_error_message (trace p) ++ repeat (ShowErrorMessage GIT_MISSING_TEXT) n.
Proof.
  intros Hon Hskip Hc Hkey Ho. revert p Hon Hc.
  induction n as [|n IH]; intros p Hon Hc; simpl.
  - now rewrite app_nil_r.
  - destruct (missing_git_step env ed p Hon Hskip Hc Hkey Ho) as (Hon' & Hc' & Hm).
    rewrite (IH _ Hon' Hc'), Hm, <- app_assoc. reflexivity.
Qed.

Lemma missing_git_is_reported_each_time_witness :
  List.filter is_error_message
    (trace (run (repeat (EvUpdate env_no_git (Some editor_a)) 3) new_provider))
  = List.filter is_error_message (trace new_provider)
    ++ repeat (ShowErrorMessage GIT_MISSING_TEXT) 3.
Proof.
  apply (missing_git_is_reported_each_time env_no_git editor_a 3 new_provider);
    try reflexivity. discriminate.
Defined.

Lemma showError_outside (raw : string) (p : Provider) :
  Js.includes raw "is outside repository" = true -> showError raw p = (Normal tt, p).
Proof.
  intros H. unfold showError. unfold_monad. cbv beta iota. rewrite H.
  now destruct (_ && _).
Qed.

(** X20.  A blame query that fails with a message containing "is outside
    repository" is swallowed whole: the reconcile shows no message, leaves
    status text, tooltip and cache as they were (the key `error_shown`
    is not set), and the editor ends with no decoration. *)
Theorem outside_repository_is_silent
    (env : Env) (ed : Editor) (p : Provider) (raw : string) :
  enabled p = true ->
  skips_fetch ed = false ->
  cache p !! fsPath ed = None ->
  fetch_outcome env (fsPath ed) = QueryFailed raw ->
  Js.includes raw "is outside repository" = true ->
  let p' := snd (updateDecorations env (Some ed) p) in
  List.filter is_error_message (trace p') = List.filter is_error_message (trace p)
  /\ statusBarText p' = statusBarText p
  /\ cache p' = cache p
  /\ decorations p' !! editor_id ed = Some [].
Proof.
  intros Hon Hskip Hc Ho Hout p'. unfold p'.
  rewrite (reconcile_failed_fetch env ed p Hon Hskip Hc) by now rewrite Ho.
  unfold after_fetch. rewrite Ho. cbn [classified_message fetch_calls snd].
  rewrite (showError_outside raw _ Hout).
  destruct (clear_frame env p) as (_ & Hcc & Hst & Hmsg).
  cbn -[lookup insert]. repeat split; auto.
  - rewrite !List.filter_app, Hmsg. simpl. now rewrite !app_nil_r.
  - apply lookup_insert_eq.
Qed.

Lemma outside_repository_is_silent_witness :
  let p' := snd (updateDecorations env_outside (Some editor_a) new_provider) in
  List.filter is_error_message (trace p')
  = List.filter is_error_message (trace new_provider)
  /\ statusBarText p' = statusBarText new_provider
  /\ cache p' = cache new_provider
  /\ decorations p' !! editor_id editor_a = Some [].
Proof.
  apply (outside_repository_is_silent env_outside editor_a new_provider OUTSIDE_TEXT);
    reflexivity.
Defined.

(** X21.  A throw of the parser reaches the user as an ordinary failed
    query.  When all three checks pass and the blame output has an
    `author-time ` line without a valid timestamp, the reconcile returns,
    shows "Git blame error: Invalid time value", decorates nothing and
    caches nothing for the file. *)
Theorem parser_throw_is_reported
    (env : Env) (ed : Editor) (p : Provider) (version gitdir stdout : string) :
  enabled p = true ->
  skips_fetch ed = false ->
  cache p !! fsPath ed = None ->
  fsPath ed <> "error_shown"%string ->
  fs_access env (fsPath ed) = true ->
  exec env "git --version" None = Normal version ->
  exec env "git rev-parse --git-dir" (Some (path_dirname env (fsPath ed))) = Normal gitdir ->
  gitdir <> EmptyString ->
  exec env (blame_command (fsPath ed)) (Some (path_dirname env (fsPath ed))) = Normal stdout ->
  forallb line_ok (Js.split Js.LF stdout) = false ->
  let p' := snd (updateDecorations env (Some ed) p) in
  fst (updateDecorations env (Some ed) p) = Normal tt
  /\ List.filter is_error_message (trace p')
     = List.filter is_error_message (trace p)
       ++ [ShowErrorMessage "Git blame error: Invalid time value"]
  /\ decorations p' !! editor_id ed = Some []
  /\ cache p' !! fsPath ed = None.
Proof.
  intros Hon Hskip Hc Hkey Hfs Hv Hr Hdir Hb Hbad p'. unfold p'.
  assert (Ho : fetch_outcome env (fsPath ed) = QueryFailed "Invalid time value").
  { unfold fetch_outcome. rewrite Hfs, Hv, Hr, Hb. cbn [negb].
    apply String.eqb_neq in Hdir. rewrite Hdir.
    unfold parseBlameOutput. now rewrite (parse_lines_bad _ parse_init Hbad). }
  rewrite (reconcile_failed_fetch env ed p Hon Hskip Hc) by now rewrite Ho.
  unfold after_fetch. rewrite Ho. cbn [classified_message fetch_calls snd fst].
  destruct (clear_frame env p) as (_ & Hcc & _ & Hmsg).
  unfold showError. unfold_monad. cbn -[lookup insert]. repeat split.
  - rewrite !List.filter_app, Hmsg. simpl. now rewrite !app_nil_r.
  - apply lookup_insert_eq.
  - rewrite lookup_insert_ne by congruence. now rewrite Hcc.
Qed.

Lemma parser_throw_is_reported_witness :
  let p' := snd (updateDecorations env_bad_time (Some editor_a) new_provider) in
  fst (updateDecorations env_bad_time (Some editor_a) new_provider) = Normal tt
  /\ List.filter is_error_message (trace p')
     = List.filter is_error_message (trace new_provider)
       ++ [ShowErrorMessage "Git blame error: Invalid time value"]
  /\ decorations p' !! editor_id editor_a = Some []
  /\ cache p' !! fsPath editor_a = None.
Proof.
  apply (parser_throw_is_reported env_bad_time editor_a new_provider
           "git version 2.43.0" ".git" bad_time_text);
    try reflexivity; discriminate.
Defined.

(** X19.  A fetch on its own changes neither the toggle nor any
    decoration and no cache entry but `error_shown`; it never caches its
    result itself, and when it returns records it has changed nothing
    but the trace, by its four calls. *)
Theorem fetch_touches_only_marker (env : Env) (filePath : string) (p : Provider) :
  enabled (snd (getGitBlame env filePath p)) = enabled p
  /\ decorations (snd (getGitBlame env filePath p)) = decorations p
  /\ (forall k, k <> "error_shown"%string ->
        cache (snd (getGitBlame env filePath p)) !! k = cache p !! k)
  /\ (forall records,
        fst (getGitBlame env filePath p) = Normal records -> records <> [] ->
        snd (getGitBlame env filePath p)
        = traced [FsAccess filePath; version_call; repo_call env filePath;
                  blame_call env filePath] p).
Proof.
  rewrite getGitBlame_outcome. cbn [fst snd].
  destruct (after_fetch_frame env filePath p) as (He & Hd & Hc).
  repeat split; auto.
  - intros k Hk. destruct Hc as [-> | ->]; [reflexivity|now rewrite lookup_insert_ne].
  - intros records H Hne. injection H as <-.
    apply fetch_result_nonempty in Hne.
    rewrite (after_fetch_fetched _ _ _ _ Hne). reflexivity.
Qed.

End Errors.

Section CacheInvariant.

Lemma numbered_nil : numbered [].
Proof. reflexivity. Qed.

Lemma parse_numbered (output : string) (records : list BlameInfo) :
  parseBlameOutput output = Normal records -> numbered records.
Proof.
  unfold parseBlameOutput, numbered.
  destruct (parse_lines (Js.split Js.LF output) parse_init) as [st|e] eqn:Hp; [|discriminate].
  intros H. injection H as <-.
  destruct (parse_lines_records _ _ _ Hp) as (new & Hb & _ & Hn & _).
  simpl in Hb, Hn. subst new. rewrite Hn. do 3 f_equal.
  rewrite <- (length_map lineNumber), Hn, length_map, length_seqZ. lia.
Qed.

Lemma fetch_result_numbered (env : Env) (filePath : string) :
  numbered (fetch_result (fetch_outcome env filePath)).
Proof.
  unfold fetch_outcome.
  destruct (negb _); [apply numbered_nil|].
  destruct (exec env "git --version" None); [|apply numbered_nil].
  destruct (exec env "git rev-parse --git-dir" _); [|apply numbered_nil].
  destruct (String.eqb _ _); [apply numbered_nil|].
  destruct (exec env (blame_command filePath) _); [|apply numbered_nil].
  destruct (parseBlameOutput _) eqn:Hp; [|apply numbered_nil].
  simpl. now apply parse_numbered in Hp.
Qed.

Lemma cache_sound_same (p q : Provider) : cache q = cache p -> cache_sound p -> cache_sound q.
Proof. unfold cache_sound. intros -> H. exact H. Qed.

Lemma cache_sound_insert (p q : Provider) (k : string) (v : list BlameInfo) :
  cache q = <[k := v]> (cache p) ->
  numbered v -> (k <> "error_shown"%string -> v <> []) ->
  cache_sound p -> cache_sound q.
Proof.
  unfold cache_sound. intros -> Hn Hne H k' v' Hl.
  destruct (decide (k = k')) as [<-|Hk].
  - rewrite lookup_insert_eq in Hl. injection Hl as <-. now split.
  - rewrite lookup_insert_ne in Hl by exact Hk. now apply H.
Qed.

Lemma cache_sound_resolve (env : Env) (ed : Editor) (p : Provider) :
  cache_sound p -> cache_sound (snd (resolve_blame env ed p)).
Proof.
  intros H. unfold resolve_blame.
  destruct (cache p !! fsPath ed); [exact H|].
  assert (Hq : cache_sound (after_fetch env (fsPath ed) p)).
  { destruct (after_fetch_frame env (fsPath ed) p) as (_ & _ & [Hc|Hc]).
    - now apply (cache_sound_same p).
    - apply (cache_sound_insert p _ _ _ Hc); [apply numbered_nil|congruence|exact H]. }
  cbn [snd]. destruct (0 <? length _)%nat eqn:Hlen; [|exact Hq].
  apply (cache_sound_insert (after_fetch env (fsPath ed) p) _ (fsPath ed)
           (fetch_result (fetch_outcome env (fsPath ed)))); auto.
  - apply fetch_result_numbered.
  - intros _ Hnil. rewrite Hnil in Hlen. discriminate.
Qed.

Lemma cache_sound_update (env : Env) (editor : option Editor) (p : Provider) :
  cache_sound p -> cache_sound (snd (updateDecorations env editor p)).
Proof.
  intros H.
  destruct editor as [ed|]; [destruct (enabled p) eqn:Hon|];
    [|now rewrite update_guard by now left|now rewrite update_guard by now right].
  rewrite (update_reconcile env ed p Hon). unfold reconcile. cbv zeta.
  destruct (clear_frame env p) as (_ & Hcc & _).
  pose proof (cache_sound_same p _ Hcc H) as H1.
  destruct (skips_fetch ed); [exact H1|].
  pose proof (cache_sound_resolve env ed _ H1) as H2.
  destruct (resolve_blame env ed (snd (clear env p))) as [records p2]. cbn [snd] in H2.
  destruct (map_decorations ed _) as [ds|e]; [|exact H2].
  destruct (0 <? length records)%nat; cbn; now apply (cache_sound_same p2).
Qed.

Lemma cache_sound_step (p : Provider) (ev : Event) : cache_sound p -> cache_sound (step p ev).
Proof.
  intros H. destruct ev as [env editor|env]; simpl.
  - now apply cache_sound_update.
  - rewrite toggle_eq. cbn [snd]. apply (cache_sound_same
      (if negb (enabled p)
       then snd (updateDecorations env (activeTextEditor env) (snd (set_enabled true p)))
       else snd (clear env (snd (set_enabled false p))))); [reflexivity|].
    destruct (negb (enabled p)).
    + apply cache_sound_update. now apply (cache_sound_same p).
    + destruct (clear_frame env (snd (set_enabled false p))) as (_ & Hc & _).
      now apply (cache_sound_same p).
Qed.

Lemma cache_sound_run (evs : list Event) : forall p, cache_sound p -> cache_sound (run evs p).
Proof.
  induction evs as [|ev evs IH]; intros p H; simpl; [exact H|].
  apply IH. now apply cache_sound_step.
Qed.

(** X16.  In every state the process can reach, each cached list of
    records is numbered 1, 2, ... in order, and no key but `error_shown`
    holds an empty list: what is cached for a file is a non-empty result
    of the parser. *)
Theorem reachable_cache_is_sound
    (evs : list Event) (k : string) (v : list BlameInfo) :
  cache (run evs new_provider) !! k = Some v ->
  numbered v /\ (k <> "error_shown"%string -> v <> []).
Proof.
  apply (cache_sound_run evs new_provider).
  intros k' v' H. unfold new_provider in H. cbn in H.
  rewrite lookup_empty in H. discriminate.
Qed.

Lemma reachable_cache_is_sound_witness :
  numbered [alice_record] /\ ("/repo/a.txt"%string <> "error_shown"%string -> [alice_record] <> []).
Proof.
  apply (reachable_cache_is_sound [EvUpdate env_a (Some editor_a)] "/repo/a.txt"
           [alice_record]).
  vm_compute. reflexivity.
Defined.

End CacheInvariant.

Section ParserIgnores.

(** X6.  Lines that start with none of `author `, `author-time `,
    `summary ` and no forty hex characters are ignored: taking such a line
    out of the text leaves the result of the parse as it is.  (So the
    committer, file name and content lines of the porcelain format, and
    the line numbers after a hash, have no effect.) *)
Theorem other_lines_are_ignored (before line after : string) :
  free_of Js.LF line = true ->
  other_line line = true ->
  parseBlameOutput
    (String.append before (String Js.LF (String.append line (String Js.LF after))))
  = parseBlameOutput (String.append before (String Js.LF after)).
Proof.
  intros Hfree Hother. unfold parseBlameOutput.
  rewrite !split_app, (split_free _ _ Hfree), !parse_lines_app.
  destruct (parse_lines (Js.split Js.LF before) parse_init) as [st|e]; [|reflexivity].
  unfold other_line in Hother.
  apply andb_true_iff in Hother as [Hother Hh].
  apply andb_true_iff in Hother as [Hother Hs].
  apply andb_true_iff in Hother as [Ha Ht].
  apply negb_true_iff in Ha, Ht, Hs, Hh.
  simpl. unfold parse_line at 1. now rewrite Ha, Ht, Hs, Hh.
Qed.

Lemma other_lines_are_ignored_witness :
  parseBlameOutput
    (String.append "author Alice"
       (String Js.LF (String.append "committer Bob" (String Js.LF alice_text))))
  = parseBlameOutput (String.append "author Alice" (String Js.LF alice_text)).
Proof.
  apply (other_lines_are_ignored "author Alice" "committer Bob" alice_text); reflexivity.
Defined.

End ParserIgnores.
